(** * The interaction script of the coffeepsite theme

    A shallow embedding of [themes/coffeepsite/assets/js/main.js]: the menu
    controller, the language dropdown controller and the theme controller,
    together with the part of the browser they run against (elements with
    attributes and class lists, [localStorage], listener registration and
    bubbling event dispatch).

    Script code is written in a state monad over the page, with exceptions
    that keep what was written before the throw.  The browser is modelled
    as far as the script uses it: listeners are called in registration
    order, a click bubbles from its target through the ancestors to the
    document and the window, [stopPropagation] ends the bubbling after the
    current node, and an exception that escapes a listener is logged
    without ending the dispatch. *)

From stdpp Require Import base strings gmap list.
From Stdlib Require Import ZArith.

Local Open Scope string_scope.
Local Open Scope Z_scope.

(** ** Elements *)

(** An element as far as the script can observe it: its attributes and the
    tokens of its [classList]. *)
Record element := Element {
  attributes : gmap string string;
  classList : gset string
}.

Definition el_getAttribute (name : string) (e : element) : option string :=
  attributes e !! name.

Definition el_setAttribute (name value : string) (e : element) : element :=
  {| attributes := <[name := value]> (attributes e); classList := classList e |}.

Definition el_contains (cls : string) (e : element) : bool :=
  bool_decide (cls ∈ classList e).

Definition el_remove (cls : string) (e : element) : element :=
  {| attributes := attributes e; classList := classList e ∖ {[cls]} |}.

Definition el_add (cls : string) (e : element) : element :=
  {| attributes := attributes e; classList := classList e ∪ {[cls]} |}.

(** [classList.toggle(cls)]: removes the token when present, adds it
    otherwise. *)
Definition el_toggle (cls : string) (e : element) : element :=
  if el_contains cls e then el_remove cls e else el_add cls e.

Arguments el_getAttribute : simpl never.
Arguments el_setAttribute : simpl never.
Arguments el_contains : simpl never.
Arguments el_remove : simpl never.
Arguments el_toggle : simpl never.

(** ** Persisted storage *)

(** [localStorage] of the origin.  A browser may refuse reads, writes or
    both (storage blocked by policy, quota of zero); the two flags say which
    calls throw. *)
Record Storage := {
  items : gmap string string;
  getItem_throws : bool;
  setItem_throws : bool
}.

(** ** Nodes, events and listeners *)

(** What the script holds references to, and what a click can travel
    through.  The five selectors of the script designate five distinct
    elements of the page, as in the templates of the theme; [Other cls] is
    any other element, known by its classes. *)
Inductive node :=
  | Document
  | Window
  | DocumentElement
  | MenuToggle
  | HeaderMenu
  | LangToggle
  | LangDropdown
  | ThemeToggle
  | Other (cls : gset string).

(** Identity of nodes, as the dispatcher compares them. *)
Definition node_eqb (a b : node) : bool :=
  match a, b with
  | Document, Document | Window, Window
  | DocumentElement, DocumentElement
  | MenuToggle, MenuToggle | HeaderMenu, HeaderMenu
  | LangToggle, LangToggle | LangDropdown, LangDropdown
  | ThemeToggle, ThemeToggle => true
  | Other c, Other d => bool_decide (c = d)
  | _, _ => false
  end.

Inductive event_type := DOMContentLoaded | Click | Resize.

Definition event_type_eqb (a b : event_type) : bool :=
  match a, b with
  | DOMContentLoaded, DOMContentLoaded | Click, Click | Resize, Resize => true
  | _, _ => false
  end.

(** An event in flight.  [path] lists the elements it bubbles through, the
    target first and its ancestors after it; the document and the window
    are appended by the dispatcher. *)
Record event := Event {
  type : event_type;
  path : list node
}.

(** The function values of the script, with the constants each closure
    captures. *)
Inductive handler :=
  | OnDOMContentLoaded
  | OnMenuToggleClick (headerMenu : node)
  | OnDocumentClick (menuToggle headerMenu : node)
  | OnWindowResize (menuToggle headerMenu : node)
  | OnLangToggleClick (langDropdown : node)
  | OnThemeToggleClick (htmlElement : node).

Record listener := Listener {
  on_node : node;
  on_type : event_type;
  callback : handler
}.

Inductive exn := TypeError | DOMException.

(** ** The page *)

Record page := Page {
  menu_toggle : option element;     (* first element matching .menu-toggle *)
  header_menu : option element;     (* first element matching .header-menu *)
  lang_toggle : option element;     (* first element matching .lang-toggle *)
  lang_dropdown : option element;   (* first element matching .lang-dropdown *)
  theme_toggle : option element;    (* first element matching .theme-toggle *)
  documentElement : element;        (* the root <html> element *)
  body_overflow : string;           (* document.body.style.overflow *)
  innerWidth : Z;                   (* window.innerWidth *)
  localStorage : Storage;
  listeners : list listener;        (* in registration order *)
  propagation_stopped : bool;       (* flag of the event being dispatched *)
  uncaught : list exn               (* exceptions that escaped a listener *)
}.

Definition set_listeners (ls : list listener) (p : page) : page :=
  Page (menu_toggle p) (header_menu p) (lang_toggle p) (lang_dropdown p)
       (theme_toggle p) (documentElement p) (body_overflow p) (innerWidth p)
       (localStorage p) ls (propagation_stopped p) (uncaught p).

Definition set_overflow (v : string) (p : page) : page :=
  Page (menu_toggle p) (header_menu p) (lang_toggle p) (lang_dropdown p)
       (theme_toggle p) (documentElement p) v (innerWidth p)
       (localStorage p) (listeners p) (propagation_stopped p) (uncaught p).

Definition set_innerWidth (w : Z) (p : page) : page :=
  Page (menu_toggle p) (header_menu p) (lang_toggle p) (lang_dropdown p)
       (theme_toggle p) (documentElement p) (body_overflow p) w
       (localStorage p) (listeners p) (propagation_stopped p) (uncaught p).

Definition set_localStorage (s : Storage) (p : page) : page :=
  Page (menu_toggle p) (header_menu p) (lang_toggle p) (lang_dropdown p)
       (theme_toggle p) (documentElement p) (body_overflow p) (innerWidth p)
       s (listeners p) (propagation_stopped p) (uncaught p).

Definition set_stopped (b : bool) (p : page) : page :=
  Page (menu_toggle p) (header_menu p) (lang_toggle p) (lang_dropdown p)
       (theme_toggle p) (documentElement p) (body_overflow p) (innerWidth p)
       (localStorage p) (listeners p) b (uncaught p).

Definition set_uncaught (l : list exn) (p : page) : page :=
  Page (menu_toggle p) (header_menu p) (lang_toggle p) (lang_dropdown p)
       (theme_toggle p) (documentElement p) (body_overflow p) (innerWidth p)
       (localStorage p) (listeners p) (propagation_stopped p) l.

(** The element a reference points to.  The document and the window are
    not elements. *)
Definition deref (n : node) (p : page) : option element :=
  match n with
  | Document | Window => None
  | DocumentElement => Some (documentElement p)
  | MenuToggle => menu_toggle p
  | HeaderMenu => header_menu p
  | LangToggle => lang_toggle p
  | LangDropdown => lang_dropdown p
  | ThemeToggle => theme_toggle p
  | Other cls => Some (Element ∅ cls)
  end.

(** Writing an element back through a reference.  The script never writes
    to an element it holds no reference to. *)
Definition store (n : node) (e : element) (p : page) : page :=
  match n with
  | DocumentElement =>
      Page (menu_toggle p) (header_menu p) (lang_toggle p) (lang_dropdown p)
           (theme_toggle p) e (body_overflow p) (innerWidth p)
           (localStorage p) (listeners p) (propagation_stopped p) (uncaught p)
  | MenuToggle =>
      Page (Some e) (header_menu p) (lang_toggle p) (lang_dropdown p)
           (theme_toggle p) (documentElement p) (body_overflow p) (innerWidth p)
           (localStorage p) (listeners p) (propagation_stopped p) (uncaught p)
  | HeaderMenu =>
      Page (menu_toggle p) (Some e) (lang_toggle p) (lang_dropdown p)
           (theme_toggle p) (documentElement p) (body_overflow p) (innerWidth p)
           (localStorage p) (listeners p) (propagation_stopped p) (uncaught p)
  | LangToggle =>
      Page (menu_toggle p) (header_menu p) (Some e) (lang_dropdown p)
           (theme_toggle p) (documentElement p) (body_overflow p) (innerWidth p)
           (localStorage p) (listeners p) (propagation_stopped p) (uncaught p)
  | LangDropdown =>
      Page (menu_toggle p) (header_menu p) (lang_toggle p) (Some e)
           (theme_toggle p) (documentElement p) (body_overflow p) (innerWidth p)
           (localStorage p) (listeners p) (propagation_stopped p) (uncaught p)
  | ThemeToggle =>
      Page (menu_toggle p) (header_menu p) (lang_toggle p) (lang_dropdown p)
           (Some e) (documentElement p) (body_overflow p) (innerWidth p)
           (localStorage p) (listeners p) (propagation_stopped p) (uncaught p)
  | Document | Window | Other _ => p
  end.

(** ** A monad for script code: state, and exceptions that keep the state *)

Inductive result (A : Type) :=
  | Ok (a : A)
  | Throw (x : exn).
Arguments Ok {A} a.
Arguments Throw {A} x.

Definition M (A : Type) : Type := page -> result A * page.

Definition ret {A} (a : A) : M A := fun p => (Ok a, p).

Definition throw {A} (x : exn) : M A := fun p => (Throw x, p).

Definition bind {A B} (m : M A) (k : A -> M B) : M B :=
  fun p =>
    match m p with
    | (Ok a, p') => k a p'
    | (Throw x, p') => (Throw x, p')
    end.

Notation "'let*' x ':=' m 'in' k" := (bind m (fun x => k))
  (at level 10, x name, m at level 100, k at level 200).
Notation "m >> k" := (bind m (fun _ => k))
  (at level 90, right associativity).

Definition when (b : bool) (m : M unit) : M unit :=
  if b then m else ret tt.

(** ** The DOM calls the script makes *)

(** [document.querySelector]: a reference to the first element matching
    the selector, or null. *)
Definition querySelector (sel : string) : M (option node) :=
  fun p =>
    let found (n : node) :=
      match deref n p with Some _ => Some n | None => None end in
    (Ok (if String.eqb sel ".menu-toggle" then found MenuToggle
         else if String.eqb sel ".header-menu" then found HeaderMenu
         else if String.eqb sel ".lang-toggle" then found LangToggle
         else if String.eqb sel ".lang-dropdown" then found LangDropdown
         else if String.eqb sel ".theme-toggle" then found ThemeToggle
         else None), p).

(** A method call on a reference: a [TypeError] when there is no element
    behind it. *)
Definition getAttribute (n : node) (name : string) : M (option string) :=
  fun p =>
    match deref n p with
    | Some e => (Ok (el_getAttribute name e), p)
    | None => (Throw TypeError, p)
    end.

Definition setAttribute (n : node) (name value : string) : M unit :=
  fun p =>
    match deref n p with
    | Some e => (Ok tt, store n (el_setAttribute name value e) p)
    | None => (Throw TypeError, p)
    end.

Definition classList_toggle (n : node) (cls : string) : M unit :=
  fun p =>
    match deref n p with
    | Some e => (Ok tt, store n (el_toggle cls e) p)
    | None => (Throw TypeError, p)
    end.

Definition classList_remove (n : node) (cls : string) : M unit :=
  fun p =>
    match deref n p with
    | Some e => (Ok tt, store n (el_remove cls e) p)
    | None => (Throw TypeError, p)
    end.

Definition set_body_overflow (v : string) : M unit :=
  fun p => (Ok tt, set_overflow v p).

Definition get_innerWidth : M Z :=
  fun p => (Ok (innerWidth p), p).

Definition addEventListener (n : node) (t : event_type) (h : handler) : M unit :=
  fun p => (Ok tt, set_listeners (listeners p ++ [Listener n t h]) p).

Definition stopPropagation : M unit :=
  fun p => (Ok tt, set_stopped true p).

Definition localStorage_getItem (key : string) : M (option string) :=
  fun p =>
    if getItem_throws (localStorage p) then (Throw DOMException, p)
    else (Ok (items (localStorage p) !! key), p).

Definition storage_set (key value : string) (s : Storage) : Storage :=
  {| items := <[key := value]> (items s);
     getItem_throws := getItem_throws s;
     setItem_throws := setItem_throws s |}.

Definition localStorage_setItem (key value : string) : M unit :=
  fun p =>
    if setItem_throws (localStorage p) then (Throw DOMException, p)
    else (Ok tt, set_localStorage (storage_set key value (localStorage p)) p).

(** [e.target.closest(sel)] for a class selector: is the target, or one of
    its ancestors, of that class?  The target of an event that has no
    element on its path is the document, which has no [closest] method. *)
Definition matches (cls : string) (p : page) (n : node) : bool :=
  match deref n p with
  | Some el => el_contains cls el
  | None => false
  end.

Definition closest (cls : string) (pth : list node) (p : page) : bool :=
  existsb (matches cls p) pth.

Arguments closest : simpl never.

Definition target_closest (e : event) (cls : string) : M bool :=
  fun p =>
    match path e with
    | [] => (Throw TypeError, p)
    | _ :: _ => (Ok (closest cls (path e) p), p)
    end.

(** JavaScript's [v || d] on a string or null: null and the empty string
    are falsy. *)
Definition or_default (v : option string) (d : string) : string :=
  match v with
  | Some s => if String.eqb s "" then d else s
  | None => d
  end.

(** Conversion of a boolean to the string [setAttribute] stores. *)
Definition string_of_bool (b : bool) : string :=
  if b then "true" else "false".

(** ** The script *)

(** [main.js] lines 6-11: the click listener of the menu trigger. *)
Definition menuToggle_onclick (headerMenu this : node) : M unit :=
  let* a := getAttribute this "aria-expanded" in
  let isExpanded := bool_decide (a = Some "true") in
  setAttribute this "aria-expanded" (string_of_bool (negb isExpanded)) >>
  classList_toggle headerMenu "is-open" >>
  set_body_overflow (if negb isExpanded then "hidden" else "").

(** Lines 13-19: the click listener of the document. *)
Definition document_onclick (menuToggle headerMenu : node) (e : event) : M unit :=
  let* inside := target_closest e "header-wrapper" in
  when (negb inside)
    (setAttribute menuToggle "aria-expanded" "false" >>
     classList_remove headerMenu "is-open" >>
     set_body_overflow "").

(** Lines 21-27: the resize listener of the window. *)
Definition window_onresize (menuToggle headerMenu : node) : M unit :=
  let* w := get_innerWidth in
  when (w >? 768)
    (setAttribute menuToggle "aria-expanded" "false" >>
     classList_remove headerMenu "is-open" >>
     set_body_overflow "").

(** Lines 34-37: the click listener of the language toggle. *)
Definition langToggle_onclick (langDropdown : node) : M unit :=
  stopPropagation >>
  classList_toggle langDropdown "is-open".

(** Line 49: [theme === 'dark' ? 'light' : 'dark']. *)
Definition opposite (theme : option string) : string :=
  if bool_decide (theme = Some "dark") then "light" else "dark".

(** Lines 47-52: the click listener of the theme toggle. *)
Definition themeToggle_onclick (htmlElement : node) : M unit :=
  let* theme := getAttribute htmlElement "data-theme" in
  let newTheme := opposite theme in
  setAttribute htmlElement "data-theme" newTheme >>
  localStorage_setItem "theme" newTheme.

(** Lines 2-28. *)
Definition menu_controller : M unit :=
  let* menuToggle := querySelector ".menu-toggle" in
  let* headerMenu := querySelector ".header-menu" in
  match menuToggle, headerMenu with
  | Some mt, Some hm =>
      addEventListener mt Click (OnMenuToggleClick hm) >>
      addEventListener Document Click (OnDocumentClick mt hm) >>
      addEventListener Window Resize (OnWindowResize mt hm)
  | _, _ => ret tt
  end.

(** Lines 30-38. *)
Definition dropdown_controller : M unit :=
  let* langToggle := querySelector ".lang-toggle" in
  let* langDropdown := querySelector ".lang-dropdown" in
  match langToggle, langDropdown with
  | Some lt, Some ld =>
      let* w := get_innerWidth in
      when (w <=? 768) (addEventListener lt Click (OnLangToggleClick ld))
  | _, _ => ret tt
  end.

(** Lines 40-53. *)
Definition theme_controller : M unit :=
  let* themeToggle := querySelector ".theme-toggle" in
  let htmlElement := DocumentElement in
  let* stored := localStorage_getItem "theme" in
  let currentTheme := or_default stored "light" in
  setAttribute htmlElement "data-theme" currentTheme >>
  match themeToggle with
  | Some tg => addEventListener tg Click (OnThemeToggleClick htmlElement)
  | None => ret tt
  end.

(** Lines 1-54: the body of the [DOMContentLoaded] listener. *)
Definition main : M unit :=
  menu_controller >> dropdown_controller >> theme_controller.

(** The top level of the script registers that listener. *)
Definition script : M unit :=
  addEventListener Document DOMContentLoaded OnDOMContentLoaded.

(** Calling a function value with its [this] and its event. *)
Definition call (h : handler) (this : node) (e : event) : M unit :=
  match h with
  | OnDOMContentLoaded => main
  | OnMenuToggleClick hm => menuToggle_onclick hm this
  | OnDocumentClick mt hm => document_onclick mt hm e
  | OnWindowResize mt hm => window_onresize mt hm
  | OnLangToggleClick ld => langToggle_onclick ld
  | OnThemeToggleClick html => themeToggle_onclick html
  end.

(** ** Event dispatch *)

(** An exception that escapes a listener is reported and the dispatch goes
    on; what the listener wrote before it threw stays written. *)
Definition report (r : result unit) (p : page) : page :=
  match r with
  | Ok _ => p
  | Throw x => set_uncaught (uncaught p ++ [x]) p
  end.

Fixpoint invoke (this : node) (e : event) (hs : list handler) (p : page) : page :=
  match hs with
  | [] => p
  | h :: hs' =>
      let (r, p') := call h this e p in
      invoke this e hs' (report r p')
  end.

(** The listeners of a node for an event type, in registration order. *)
Definition listens (n : node) (t : event_type) (l : listener) : bool :=
  node_eqb (on_node l) n && event_type_eqb (on_type l) t.

Definition listeners_for (n : node) (t : event_type) (p : page) : list handler :=
  List.map callback (List.filter (listens n t) (listeners p)).

(** Bubbling: every node of the route runs its listeners, until one of them
    has stopped the propagation. *)
Fixpoint propagate (e : event) (route : list node) (p : page) : page :=
  match route with
  | [] => p
  | cur :: rest =>
      let p' := invoke cur e (listeners_for cur (type e) p) p in
      if propagation_stopped p' then p' else propagate e rest p'
  end.

Definition route (e : event) : list node :=
  match type e with
  | Click => path e ++ [Document; Window]
  | DOMContentLoaded => [Document; Window]
  | Resize => [Window]
  end.

Definition dispatch (e : event) (p : page) : page :=
  propagate e (route e) (set_stopped false p).

(** What happens to a loaded page: the user clicks an element (given with
    its ancestors), or the viewport takes a new width. *)
Inductive action :=
  | UserClick (path : list node)
  | ViewportResize (width : Z).

Definition fire (a : action) (p : page) : page :=
  match a with
  | UserClick pth => dispatch (Event Click pth) p
  | ViewportResize w => dispatch (Event Resize []) (set_innerWidth w p)
  end.

(** Loading the page: a fresh listener table, the script, then the
    [DOMContentLoaded] event. *)
Definition fresh (p : page) : page :=
  set_uncaught [] (set_stopped false (set_listeners [] p)).

Definition load (p : page) : page :=
  dispatch (Event DOMContentLoaded []) (snd (script (fresh p))).

Definition run (acts : list action) (p : page) : page :=
  foldl (fun q a => fire a q) p acts.

(** The pages seen after each action of a session. *)
Fixpoint trace (acts : list action) (p : page) : list page :=
  match acts with
  | [] => []
  | a :: rest => fire a p :: trace rest (fire a p)
  end.

(** ** Observations *)

Definition aria_expanded (p : page) : bool :=
  match menu_toggle p with
  | Some e => bool_decide (el_getAttribute "aria-expanded" e = Some "true")
  | None => false
  end.

Definition aria_expanded_value (p : page) : option string :=
  match menu_toggle p with
  | Some e => el_getAttribute "aria-expanded" e
  | None => None
  end.

(** The whole state of the menu: both elements and the scroll lock. *)
Definition menu_state (p : page) : option element * option element * string :=
  (menu_toggle p, header_menu p, body_overflow p).

Definition menu_is_open (p : page) : bool :=
  match header_menu p with
  | Some e => el_contains "is-open" e
  | None => false
  end.

Definition dropdown_is_open (p : page) : bool :=
  match lang_dropdown p with
  | Some e => el_contains "is-open" e
  | None => false
  end.

Definition data_theme (p : page) : option string :=
  el_getAttribute "data-theme" (documentElement p).

Definition stored_theme (p : page) : option string :=
  items (localStorage p) !! "theme".

(** ** Pages and clicks for examples *)

Definition plain : element := Element ∅ ∅.

Definition open_storage (m : gmap string string) : Storage :=
  {| items := m; getItem_throws := false; setItem_throws := false |}.

(** The five elements present, the menu closed, a narrow viewport, nothing
    stored. *)
Definition sample : page :=
  {| menu_toggle := Some (Element {["aria-expanded" := "false"]} {["menu-toggle"]});
     header_menu := Some (Element ∅ {["header-menu"]});
     lang_toggle := Some (Element ∅ {["lang-toggle"]});
     lang_dropdown := Some (Element ∅ {["lang-dropdown"]});
     theme_toggle := Some (Element ∅ {["theme-toggle"]});
     documentElement := plain;
     body_overflow := "";
     innerWidth := 375;
     localStorage := open_storage ∅;
     listeners := [];
     propagation_stopped := false;
     uncaught := [] |}.

(** The same page with a storage that refuses reads and writes, and with
    one that refuses writes only. *)
Definition with_storage (s : Storage) (p : page) : page :=
  set_localStorage s p.

Definition blocked : page :=
  with_storage {| items := ∅; getItem_throws := true; setItem_throws := true |}
    sample.

Definition read_only : page :=
  with_storage {| items := ∅; getItem_throws := false; setItem_throws := true |}
    sample.

(** The sample page on a wide viewport. *)
Definition wide : page := set_innerWidth 1024 sample.

(** An element the script holds no reference to, such as the icon inside
    a button. *)
Definition anonymous (n : node) : Prop :=
  match n with
  | Other _ => True
  | _ => False
  end.

(** The header wrapper of the theme, an ancestor of the three toggles. *)
Definition header_wrapper : node := Other {["header-wrapper"]}.

(** A click on the theme toggle of the sample page. *)
Definition theme_click : action :=
  UserClick [ThemeToggle; header_wrapper; DocumentElement].

(** ** What loading the page leaves behind *)

Definition present (o : option element) : bool :=
  match o with Some _ => true | None => false end.

Definition menu_listeners (p : page) : list listener :=
  if present (menu_toggle p) && present (header_menu p)
  then [Listener MenuToggle Click (OnMenuToggleClick HeaderMenu);
        Listener Document Click (OnDocumentClick MenuToggle HeaderMenu);
        Listener Window Resize (OnWindowResize MenuToggle HeaderMenu)]
  else [].

Definition dropdown_listeners (p : page) : list listener :=
  if present (lang_toggle p) && present (lang_dropdown p) && (innerWidth p <=? 768)
  then [Listener LangToggle Click (OnLangToggleClick LangDropdown)]
  else [].

Definition theme_listeners (p : page) : list listener :=
  if getItem_throws (localStorage p) then []
  else if present (theme_toggle p)
       then [Listener ThemeToggle Click (OnThemeToggleClick DocumentElement)]
       else [].

(** Every listener the script can ever register. *)
Definition script_listeners : list listener :=
  [Listener Document DOMContentLoaded OnDOMContentLoaded;
   Listener MenuToggle Click (OnMenuToggleClick HeaderMenu);
   Listener Document Click (OnDocumentClick MenuToggle HeaderMenu);
   Listener Window Resize (OnWindowResize MenuToggle HeaderMenu);
   Listener LangToggle Click (OnLangToggleClick LangDropdown);
   Listener ThemeToggle Click (OnThemeToggleClick DocumentElement)].

(** One listener called by the dispatcher. *)
Definition step (l : listener) (e : event) (p : page) : page :=
  let (r, p') := call (callback l) (on_node l) e p in report r p'.

(** ** Predicates of the statements *)

(** The listener of the theme toggle. *)
Definition theme_listener : listener :=
  Listener ThemeToggle Click (OnThemeToggleClick DocumentElement).

(** The elements a listener of the script dereferences when it runs. *)
Definition ready (l : listener) (p : page) : Prop :=
  match callback l with
  | OnMenuToggleClick _ | OnDocumentClick _ _ | OnWindowResize _ _ =>
      present (menu_toggle p) = true /\ present (header_menu p) = true
  | OnLangToggleClick _ => present (lang_dropdown p) = true
  | OnDOMContentLoaded | OnThemeToggleClick _ => True
  end.

(** Every registered listener is one of the script, and the elements it
    captured are on the page. *)
Definition sound (p : page) : Prop :=
  forall l, In l (listeners p) -> In l script_listeners /\ ready l p.

(** What no click or resize listener changes: the listener table, which
    elements exist, and whether the storage throws. *)
Definition shape (p : page) :=
  (listeners p,
   (present (menu_toggle p), present (header_menu p), present (lang_toggle p),
    present (lang_dropdown p), present (theme_toggle p)),
   (getItem_throws (localStorage p), setItem_throws (localStorage p))).

(** An invariant of a loaded page: kept by the two writes of the browser
    and by every click or resize listener registered on the page. *)
Record invariant (P : page -> Prop) : Prop := {
  inv_sound : forall q, P q -> sound q;
  inv_stopped : forall q b, P q -> P (set_stopped b q);
  inv_width : forall q w, P q -> P (set_innerWidth w q);
  inv_step : forall l e q,
    In l (listeners q) -> In l script_listeners -> ready l q ->
    on_type l = type e -> type e <> DOMContentLoaded ->
    P q -> P (step l e q)
}.

(** The two representations of the menu-open flag say the same. *)
Definition menu_agrees (q : page) : Prop :=
  aria_expanded q = menu_is_open q.

(** Either the open flag is still [b], or a menu listener ran and left the
    body overflow matching the flag. *)
Definition overflow_follows (b : bool) (q : page) : Prop :=
  sound q /\
  (aria_expanded q = b \/
   body_overflow q = if aria_expanded q then "hidden" else "").

(** With a writable storage, the root attribute shows the stored theme, or
    "light" when there is none. *)
Definition theme_mirrored (q : page) : Prop :=
  sound q /\ setItem_throws (localStorage q) = false /\
  data_theme q = Some (or_default (stored_theme q) "light").

(** With a writable storage, the root attribute and the stored theme are the
    same value. *)
Definition theme_equal (q : page) : Prop :=
  sound q /\ setItem_throws (localStorage q) = false /\
  data_theme q = stored_theme q.

(** The three function values of the menu controller. *)
Definition menu_handler (h : handler) : Prop :=
  match h with
  | OnMenuToggleClick _ | OnDocumentClick _ _ | OnWindowResize _ _ => True
  | _ => False
  end.

(** The sample page without its menu trigger. *)
Definition without_trigger : page :=
  Page None (header_menu sample) (lang_toggle sample) (lang_dropdown sample)
       (theme_toggle sample) (documentElement sample) (body_overflow sample)
       (innerWidth sample) (localStorage sample) [] false [].

(** The sample page without its theme toggle, "dark" stored. *)
Definition without_theme_toggle : page :=
  Page (menu_toggle sample) (header_menu sample) (lang_toggle sample)
       (lang_dropdown sample) None (documentElement sample)
       (body_overflow sample) (innerWidth sample)
       (open_storage {["theme" := "dark"]}) [] false [].

(** ** Predicates of the further properties *)

(** The listeners of the menu trigger, of the document and of the language
    toggle. *)
Definition menu_listener : listener :=
  Listener MenuToggle Click (OnMenuToggleClick HeaderMenu).

Definition document_listener : listener :=
  Listener Document Click (OnDocumentClick MenuToggle HeaderMenu).

Definition lang_listener : listener :=
  Listener LangToggle Click (OnLangToggleClick LangDropdown).

(** The action is a click that bubbles through the node. *)
Definition passes (n : node) (a : action) : Prop :=
  match a with
  | UserClick pth => In n pth
  | ViewportResize _ => False
  end.

(** A click has an element as its target. *)
Definition targeted (a : action) : Prop :=
  match a with
  | UserClick pth => pth <> []
  | ViewportResize _ => True
  end.

(** The target of the click is inside an element of class
    [header-wrapper]. *)
Definition inside_header (pth : list node) (p : page) : bool :=
  closest "header-wrapper" pth p.

(** With a writable storage, the root attribute and the stored theme are the
    same one of the two themes. *)
Definition theme_settled (q : page) : Prop :=
  sound q /\ setItem_throws (localStorage q) = false /\
  data_theme q = stored_theme q /\
  (data_theme q = Some "light" \/ data_theme q = Some "dark").

(** The sample page with an unrecognised theme stored. *)
Definition with_blue_stored : page :=
  with_storage (open_storage {["theme" := "blue"]}) sample.

(** * Proofs *)

(** Symbolic execution of script code: the script and the DOM calls
    unfold as soon as they are applied to a page. *)
Arguments bind {A B} m k p /.
Arguments ret {A} a p /.
Arguments throw {A} x p /.
Arguments when b m p /.
Arguments querySelector sel p /.
Arguments getAttribute n name p /.
Arguments setAttribute n name value p /.
Arguments classList_toggle n cls p /.
Arguments classList_remove n cls p /.
Arguments set_body_overflow v p /.
Arguments get_innerWidth p /.
Arguments addEventListener n t h p /.
Arguments stopPropagation p /.
Arguments localStorage_getItem key p /.
Arguments localStorage_setItem key value p /.
Arguments target_closest e cls p /.
Arguments menuToggle_onclick headerMenu this p /.
Arguments document_onclick menuToggle headerMenu e p /.
Arguments window_onresize menuToggle headerMenu p /.
Arguments langToggle_onclick langDropdown p /.
Arguments themeToggle_onclick htmlElement p /.
Arguments menu_controller p /.
Arguments dropdown_controller p /.
Arguments theme_controller p /.
Arguments call h this e p /.
Arguments step l e p /.
Arguments report r p /.
Arguments set_listeners ls p /.
Arguments set_overflow v p /.
Arguments set_innerWidth w p /.
Arguments set_localStorage s p /.
Arguments set_stopped b p /.
Arguments set_uncaught l p /.

(** The tests a listener makes on the page, decided one by one. *)
Ltac decide_tests :=
  repeat (match goal with
          | |- context [match ?x with _ => _ end] => is_var x; destruct x
          | |- context [?a >? ?b] => destruct (a >? b) eqn:?
          | |- context [closest ?c ?l ?p] => destruct (closest c l p) eqn:?
          end; simpl).

Lemma menu_controller_eq (p : page) :
  menu_controller p = (Ok tt, set_listeners (listeners p ++ menu_listeners p) p).
Proof.
  destruct p as [mt hm lt ld tg html ov w sto ls sp un].
  unfold menu_listeners.
  destruct mt, hm; simpl; rewrite <- ?app_assoc, ?app_nil_r; reflexivity.
Qed.

Lemma dropdown_controller_eq (p : page) :
  dropdown_controller p =
  (Ok tt, set_listeners (listeners p ++ dropdown_listeners p) p).
Proof.
  destruct p as [mt hm lt ld tg html ov w sto ls sp un].
  unfold dropdown_listeners.
  destruct lt, ld; simpl; try destruct (w <=? 768);
    simpl; rewrite ?app_nil_r; reflexivity.
Qed.

Lemma theme_controller_eq (p : page) :
  theme_controller p =
  if getItem_throws (localStorage p) then (Throw DOMException, p)
  else (Ok tt,
        set_listeners (listeners p ++ theme_listeners p)
          (store DocumentElement
             (el_setAttribute "data-theme"
                (or_default (stored_theme p) "light") (documentElement p)) p)).
Proof.
  destruct p as [mt hm lt ld tg html ov w [it gt st] ls sp un].
  unfold theme_listeners, stored_theme.
  destruct tg, gt; simpl; rewrite ?app_nil_r; reflexivity.
Qed.

Lemma main_eq (p : page) :
  main p =
  let q := set_listeners
             (listeners p ++ menu_listeners p ++ dropdown_listeners p) p in
  if getItem_throws (localStorage p) then (Throw DOMException, q)
  else (Ok tt,
        set_listeners
          (listeners p ++ menu_listeners p ++ dropdown_listeners p
             ++ theme_listeners p)
          (store DocumentElement
             (el_setAttribute "data-theme"
                (or_default (stored_theme p) "light") (documentElement p)) p)).
Proof.
  unfold main, bind at 1. rewrite menu_controller_eq.
  unfold bind. rewrite dropdown_controller_eq, theme_controller_eq.
  destruct p as [mt hm lt ld tg html ov w [it gt st] ls sp un].
  unfold menu_listeners, dropdown_listeners, theme_listeners, stored_theme,
    set_listeners; simpl.
  destruct gt; rewrite <- ?app_assoc; reflexivity.
Qed.

Lemma load_eq (p : page) :
  load p =
  Page (menu_toggle p) (header_menu p) (lang_toggle p) (lang_dropdown p)
       (theme_toggle p)
       (if getItem_throws (localStorage p) then documentElement p
        else el_setAttribute "data-theme"
               (or_default (stored_theme p) "light") (documentElement p))
       (body_overflow p) (innerWidth p) (localStorage p)
       (Listener Document DOMContentLoaded OnDOMContentLoaded
          :: menu_listeners p ++ dropdown_listeners p ++ theme_listeners p)
       false
       (if getItem_throws (localStorage p) then [DOMException] else []).
Proof.
  unfold load, dispatch, route, script, fresh, addEventListener. simpl.
  unfold listeners_for. simpl. rewrite main_eq.
  destruct p as [mt hm lt ld tg html ov w [it gt st] ls sp un].
  unfold menu_listeners, dropdown_listeners, theme_listeners, stored_theme.
  simpl.
  destruct gt; simpl.
  - unfold listeners_for; simpl.
    destruct (present mt && present hm), (present lt && present ld && (w <=? 768));
      reflexivity.
  - unfold listeners_for; simpl.
    destruct (present mt && present hm), (present lt && present ld && (w <=? 768)),
      (present tg); reflexivity.
Qed.

(** ** Facts about elements *)

Lemma el_contains_toggle (cls : string) (e : element) :
  el_contains cls (el_toggle cls e) = negb (el_contains cls e).
Proof.
  unfold el_toggle, el_contains.
  destruct (bool_decide (cls ∈ classList e)) eqn:H; simpl.
  - apply bool_decide_eq_true in H. apply bool_decide_eq_false.
    rewrite elem_of_difference, elem_of_singleton. tauto.
  - apply bool_decide_eq_false in H. apply bool_decide_eq_true.
    rewrite elem_of_union, elem_of_singleton. tauto.
Qed.

Lemma el_contains_remove (cls : string) (e : element) :
  el_contains cls (el_remove cls e) = false.
Proof.
  unfold el_contains. apply bool_decide_eq_false. simpl.
  rewrite elem_of_difference, elem_of_singleton. tauto.
Qed.

Lemma el_remove_absent (cls : string) (e : element) :
  el_contains cls e = false -> el_remove cls e = e.
Proof.
  unfold el_contains, el_remove. intros H%bool_decide_eq_false.
  destruct e as [a c]; simpl in *. f_equal.
  apply set_eq. intros x. rewrite elem_of_difference, elem_of_singleton.
  split; [tauto|]. intros Hx. split; [exact Hx|]. by intros ->.
Qed.

Lemma el_getAttribute_toggle (name cls : string) (e : element) :
  el_getAttribute name (el_toggle cls e) = el_getAttribute name e.
Proof. unfold el_toggle. destruct (el_contains cls e); reflexivity. Qed.

Lemma el_getAttribute_set_eq (name v : string) (e : element) :
  el_getAttribute name (el_setAttribute name v e) = Some v.
Proof. unfold el_getAttribute; simpl. apply lookup_insert_eq. Qed.

Lemma el_setAttribute_same (name v : string) (e : element) :
  el_getAttribute name e = Some v -> el_setAttribute name v e = e.
Proof.
  unfold el_getAttribute, el_setAttribute. intros H.
  destruct e as [a c]; simpl in *. f_equal. by apply insert_id.
Qed.

Lemma node_eqb_eq (a b : node) : node_eqb a b = true -> a = b.
Proof.
  destruct a, b; simpl; try discriminate; try reflexivity.
  intros H%bool_decide_eq_true. by subst.
Qed.

Lemma event_type_eqb_eq (a b : event_type) : event_type_eqb a b = true -> a = b.
Proof. destruct a, b; simpl; try discriminate; reflexivity. Qed.

(** ** Invariants of the dispatcher *)

Lemma listeners_for_In (h : handler) (n : node) (t : event_type) (p : page) :
  In h (listeners_for n t p) -> In (Listener n t h) (listeners p).
Proof.
  unfold listeners_for. rewrite in_map_iff.
  intros (l & Hc & Hl). apply filter_In in Hl as [Hl Hm].
  unfold listens in Hm. apply andb_true_iff in Hm as [Hn Ht].
  apply node_eqb_eq in Hn. apply event_type_eqb_eq in Ht.
  destruct l as [n' t' h']; simpl in *. by subst.
Qed.

(** A property kept by every listener of a fixed listener table is kept by
    a whole dispatch. *)
Section Dispatch.
Variable P : page -> Prop.
Variable e : event.
Variable L : list listener.
Hypothesis P_listeners : forall q, P q -> listeners q = L.

Lemma invoke_inv (this : node) (hs : list handler) (p : page) :
  (forall h q, In h hs -> P q -> P (step (Listener this (type e) h) e q)) ->
  P p -> P (invoke this e hs p).
Proof.
  revert p. induction hs as [|h hs IH]; intros p Hstep Hp.
  - exact Hp.
  - specialize (Hstep h p (or_introl eq_refl) Hp) as Hq.
    unfold step in Hq; cbn [callback on_node] in Hq.
    cbn [invoke].
    destruct (call h this e p) as [r p']. apply IH; [|exact Hq].
    intros h' q Hin. apply Hstep. by right.
Qed.

Lemma propagate_inv (rt : list node) :
  (forall l q, In l L -> on_type l = type e -> In (on_node l) rt ->
     P q -> P (step l e q)) ->
  forall p, P p -> P (propagate e rt p).
Proof.
  induction rt as [|cur rest IH]; intros Hstep p Hp; cbn [propagate].
  - exact Hp.
  - assert (Hq : P (invoke cur e (listeners_for cur (type e) p) p)).
    { apply invoke_inv; [|exact Hp].
      intros h q Hin Hq. apply listeners_for_In in Hin.
      rewrite (P_listeners p Hp) in Hin.
      apply Hstep; [exact Hin | reflexivity | by left | exact Hq]. }
    destruct (propagation_stopped _); [exact Hq|].
    apply IH; [|exact Hq].
    intros l q Hl Ht Hn. apply Hstep; [exact Hl | exact Ht | by right].
Qed.
End Dispatch.

(** ** Well-formed listener tables *)

(** The listeners of the script other than the one of [DOMContentLoaded]:
    what a click or a resize can run. *)
Lemma script_listener_cases (l : listener) (e : event) :
  In l script_listeners -> on_type l = type e -> type e <> DOMContentLoaded ->
  l = Listener MenuToggle Click (OnMenuToggleClick HeaderMenu) \/
  l = Listener Document Click (OnDocumentClick MenuToggle HeaderMenu) \/
  l = Listener Window Resize (OnWindowResize MenuToggle HeaderMenu) \/
  l = Listener LangToggle Click (OnLangToggleClick LangDropdown) \/
  l = Listener ThemeToggle Click (OnThemeToggleClick DocumentElement).
Proof.
  simpl. intros [<-|[<-|[<-|[<-|[<-|[<-|[]]]]]]] Ht He; simpl in Ht;
    try congruence; tauto.
Qed.

(** Case analysis on the listener being run, then on the page it runs on. *)
Ltac by_listener Hl Ht He :=
  destruct (script_listener_cases _ _ Hl Ht He) as [->|[->|[->|[->| ->]]]];
  clear Hl Ht He.

Ltac on_page e q :=
  destruct e as [ty pth];
  destruct q as [mt hm lt ld tg html ov w [it gt st] ls sp un];
  simpl; decide_tests.

Lemma step_shape (l : listener) (e : event) (q : page) :
  In l script_listeners -> on_type l = type e -> type e <> DOMContentLoaded ->
  shape (step l e q) = shape q.
Proof.
  intros Hl Ht He. unfold shape. by_listener Hl Ht He; on_page e q; reflexivity.
Qed.

Lemma sound_shape (p q : page) : shape p = shape q -> sound q -> sound p.
Proof.
  unfold shape, sound, ready. intros H Hq l Hl.
  injection H as HL Hmt Hhm Hlt Hld Htg Hg Hs.
  rewrite HL in Hl. specialize (Hq l Hl) as [H1 H2]. split; [exact H1|].
  rewrite Hmt, Hhm, Hld. exact H2.
Qed.

Lemma propagate_invariant (P : page -> Prop) (e : event) (rt : list node) (p : page) :
  invariant P -> type e <> DOMContentLoaded -> P p -> P (propagate e rt p).
Proof.
  intros [Hs Hst Hwd Hstep] He Hp.
  enough (P (propagate e rt p) /\ shape (propagate e rt p) = shape p) by tauto.
  apply (propagate_inv (fun q => P q /\ shape q = shape p) e (listeners p)).
  - intros q [_ Hq]. unfold shape in Hq. by injection Hq.
  - intros l q Hl Ht _ [Hq Hsh].
    destruct (Hs p Hp l Hl) as [Hl' Hr].
    assert (HL : listeners q = listeners p)
      by (unfold shape in Hsh; by injection Hsh).
    split.
    + apply Hstep; try done.
      * by rewrite HL.
      * destruct (Hs q Hq l) as [_ Hr']; [by rewrite HL | exact Hr'].
    + rewrite step_shape; done.
  - split; [exact Hp | reflexivity].
Qed.

Lemma dispatch_inv (P : page -> Prop) (e : event) (p : page) :
  invariant P -> type e <> DOMContentLoaded -> P p -> P (dispatch e p).
Proof.
  intros HI He Hp. unfold dispatch.
  apply propagate_invariant; [exact HI | exact He |].
  by apply (inv_stopped P HI).
Qed.

Lemma fire_inv (P : page -> Prop) (a : action) (p : page) :
  invariant P -> P p -> P (fire a p).
Proof.
  intros HI Hp. destruct a as [pth|w]; unfold fire.
  - apply dispatch_inv; [exact HI | discriminate | exact Hp].
  - apply dispatch_inv; [exact HI | discriminate | by apply (inv_width P HI)].
Qed.

Lemma run_inv (P : page -> Prop) (acts : list action) (p : page) :
  invariant P -> P p -> P (run acts p).
Proof.
  intros HI. revert p. induction acts as [|a acts IH]; intros p Hp.
  - exact Hp.
  - apply (IH (fire a p)). by apply fire_inv.
Qed.

Lemma trace_inv (P : page -> Prop) (acts : list action) (p : page) :
  invariant P -> P p -> Forall P (trace acts p).
Proof.
  intros HI. revert p. induction acts as [|a acts IH]; intros p Hp; cbn [trace].
  - constructor.
  - assert (P (fire a p)) by (by apply fire_inv). constructor; [done|]. by apply IH.
Qed.

Lemma sound_load (p : page) : sound (load p).
Proof.
  rewrite load_eq. unfold sound, ready; cbn [listeners menu_toggle header_menu lang_dropdown].
  unfold menu_listeners, dropdown_listeners, theme_listeners.
  intros l [<-|Hl]; [split; [by left | exact I]|].
  destruct (present (menu_toggle p)), (present (header_menu p)),
    (present (lang_toggle p)), (present (lang_dropdown p)),
    (innerWidth p <=? 768), (getItem_throws (localStorage p)),
    (present (theme_toggle p));
    simpl in Hl;
    repeat (destruct Hl as [<-|Hl]; [simpl; tauto|]);
    destruct Hl.
Qed.

Lemma sound_set_stopped (b : bool) (q : page) : sound q -> sound (set_stopped b q).
Proof. apply sound_shape. reflexivity. Qed.

Lemma sound_set_innerWidth (w : Z) (q : page) :
  sound q -> sound (set_innerWidth w q).
Proof. apply sound_shape. reflexivity. Qed.

Lemma sound_step (l : listener) (e : event) (q : page) :
  In l script_listeners -> on_type l = type e -> type e <> DOMContentLoaded ->
  sound q -> sound (step l e q).
Proof. intros Hl Ht He. apply sound_shape. by apply step_shape. Qed.

(** Running a listener whose elements are on the page: the absent cases
    are ruled out first. *)
Ltac on_ready_page e q Hr :=
  unfold ready in Hr; cbn [callback] in Hr;
  destruct e as [ty pth];
  destruct q as [mt hm lt ld tg html ov w [it gt st] ls sp un];
  cbn [menu_toggle header_menu lang_dropdown] in Hr;
  repeat match goal with
         | H : _ /\ _ |- _ => destruct H
         | H : present ?x = true |- _ => destruct x; [clear H | discriminate H]
         end;
  simpl; decide_tests.

(** ** Pages reached from a load *)

Lemma shape_invariant (S : _) : invariant (fun q => sound q /\ shape q = S).
Proof.
  split.
  - intros q [H _]. exact H.
  - intros q b [Hs <-]. split; [by apply sound_set_stopped | reflexivity].
  - intros q w [Hs <-]. split; [by apply sound_set_innerWidth | reflexivity].
  - intros l e q _ Hl Hr Ht He [Hs <-].
    split; [by apply sound_step | by apply step_shape].
Qed.

Lemma run_shape (acts : list action) (p : page) :
  sound p -> sound (run acts p) /\ shape (run acts p) = shape p.
Proof.
  intros Hs. apply (run_inv _ acts p (shape_invariant (shape p))). by split.
Qed.

(** The listeners a loaded page has for each node and event type. *)
Ltac table_lookup p0 H :=
  unfold listeners_for; unfold shape in H; injection H as -> _ _ _ _ _ _ _;
  rewrite load_eq; cbn [listeners];
  unfold menu_listeners, dropdown_listeners, theme_listeners;
  destruct (present (menu_toggle p0) && present (header_menu p0)),
    (present (lang_toggle p0) && present (lang_dropdown p0)
       && (innerWidth p0 <=? 768)),
    (getItem_throws (localStorage p0)), (present (theme_toggle p0));
  reflexivity.

Lemma listeners_for_resize (p0 q : page) :
  shape q = shape (load p0) ->
  listeners_for Window Resize q =
  if present (menu_toggle p0) && present (header_menu p0)
  then [OnWindowResize MenuToggle HeaderMenu] else [].
Proof. intros H. table_lookup p0 H. Qed.

Lemma listeners_for_menu_click (p0 q : page) :
  shape q = shape (load p0) ->
  listeners_for MenuToggle Click q =
  if present (menu_toggle p0) && present (header_menu p0)
  then [OnMenuToggleClick HeaderMenu] else [].
Proof. intros H. table_lookup p0 H. Qed.

Lemma listeners_for_document_click (p0 q : page) :
  shape q = shape (load p0) ->
  listeners_for Document Click q =
  if present (menu_toggle p0) && present (header_menu p0)
  then [OnDocumentClick MenuToggle HeaderMenu] else [].
Proof. intros H. table_lookup p0 H. Qed.

Lemma listeners_for_lang_click (p0 q : page) :
  shape q = shape (load p0) ->
  listeners_for LangToggle Click q =
  if present (lang_toggle p0) && present (lang_dropdown p0)
       && (innerWidth p0 <=? 768)
  then [OnLangToggleClick LangDropdown] else [].
Proof. intros H. table_lookup p0 H. Qed.

Lemma listeners_for_theme_click (p0 q : page) :
  shape q = shape (load p0) ->
  listeners_for ThemeToggle Click q =
  if getItem_throws (localStorage p0) then []
  else if present (theme_toggle p0)
       then [OnThemeToggleClick DocumentElement] else [].
Proof. intros H. table_lookup p0 H. Qed.

Lemma listeners_for_other (cls : gset string) (t : event_type) (q : page) :
  sound q -> listeners_for (Other cls) t q = [].
Proof.
  intros Hs. unfold listeners_for.
  destruct (List.filter _ _) as [|l rest] eqn:Hf; [reflexivity|].
  assert (Hl : In l (List.filter (listens (Other cls) t) (listeners q)))
    by (rewrite Hf; by left).
  apply filter_In in Hl as [Hl Hm]. destruct (Hs l Hl) as [Hin _].
  simpl in Hin.
  destruct Hin as [<-|[<-|[<-|[<-|[<-|[<-|[]]]]]]]; discriminate Hm.
Qed.

Lemma present_true (o : option element) : o <> None -> present o = true.
Proof. by destruct o. Qed.

(** A page reached from a load has the elements the loaded markup had. *)
Lemma reached (acts : list action) (p0 : page) :
  let p := run acts (load p0) in
  sound p /\ shape p = shape (load p0).
Proof. apply run_shape, sound_load. Qed.

(** ** The menu: both representations of the open flag agree *)

Ltac observe :=
  unfold menu_agrees, aria_expanded, aria_expanded_value, menu_state,
    menu_is_open, dropdown_is_open, data_theme, stored_theme in *.

Ltac element_facts :=
  rewrite ?el_getAttribute_set_eq, ?el_contains_toggle, ?el_contains_remove,
    ?el_getAttribute_toggle.

Lemma menu_agrees_invariant : invariant (fun q => sound q /\ menu_agrees q).
Proof.
  split.
  - intros q [H _]. exact H.
  - intros q b [Hw Ha]. split; [by apply sound_set_stopped | exact Ha].
  - intros q w [Hw Ha]. split; [by apply sound_set_innerWidth | exact Ha].
  - intros l e q _ Hl Hr Ht He [Hw Ha]. split; [by apply sound_step|].
    clear Hw. revert Ha. observe.
    by_listener Hl Ht He; on_ready_page e q Hr; element_facts;
      try (intros H; exact H); try reflexivity.
    intros <-.
    by destruct (bool_decide (el_getAttribute "aria-expanded" _ = _)).
Qed.

Lemma shape_load (p : page) :
  shape (load p) =
  (Listener Document DOMContentLoaded OnDOMContentLoaded
     :: menu_listeners p ++ dropdown_listeners p ++ theme_listeners p,
   (present (menu_toggle p), present (header_menu p), present (lang_toggle p),
    present (lang_dropdown p), present (theme_toggle p)),
   (getItem_throws (localStorage p), setItem_throws (localStorage p))).
Proof. rewrite load_eq. reflexivity. Qed.

Lemma menu_agrees_load (p : page) :
  aria_expanded p = menu_is_open p ->
  sound (load p) /\ menu_agrees (load p).
Proof.
  intros Ha. split; [apply sound_load|].
  unfold menu_agrees. rewrite load_eq. exact Ha.
Qed.

(** C3.  From a page whose menu is closed in both representations, after
    every action of every session (clicks on the menu trigger, and any other
    click or resize as well) the boolean value of [aria-expanded] on the
    trigger equals the presence of [is-open] on the menu container. *)
Theorem menu_representations_agree (p : page) (acts : list action) :
  aria_expanded p = false ->
  menu_is_open p = false ->
  Forall (fun q => aria_expanded q = menu_is_open q) (trace acts (load p)).
Proof.
  intros Ha Ho.
  eapply Forall_impl;
    [apply (trace_inv _ acts (load p) menu_agrees_invariant);
     apply menu_agrees_load; congruence|].
  intros q [_ H]. exact H.
Qed.

(** ** The menu: scroll lock follows the open flag *)

Lemma overflow_follows_invariant (b : bool) : invariant (overflow_follows b).
Proof.
  split.
  - intros q [H _]. exact H.
  - intros q s (Hs & Ho). split; [by apply sound_set_stopped | exact Ho].
  - intros q w (Hs & Ho). split; [by apply sound_set_innerWidth | exact Ho].
  - intros l e q Hin Hl Hr Ht He (Hs & Ho).
    split; [by apply sound_step|].
    clear Hs Hin. revert Ho. observe.
    by_listener Hl Ht He; on_ready_page e q Hr; element_facts;
      try (intros H; exact H); try (intros; right; reflexivity).
    intros _. right.
    by destruct (bool_decide (el_getAttribute "aria-expanded" _ = _)).
Qed.

Lemma menu_representations_agree_witness :
  Forall (fun q => aria_expanded q = menu_is_open q)
    (trace [UserClick [MenuToggle; header_wrapper; DocumentElement];
            UserClick [Other ∅; DocumentElement];
            UserClick [MenuToggle; header_wrapper; DocumentElement];
            ViewportResize 1024]
       (load sample)).
Proof.
  apply (menu_representations_agree sample); reflexivity.
Defined.

(** The four transitions of the menu on the sample page: a trigger click
    opens it; a second trigger click, a click outside the header and a
    resize above the threshold each close it. *)
Example trigger_click_opens :
  let q := fire (UserClick [MenuToggle; header_wrapper; DocumentElement])
             (load sample) in
  (aria_expanded q, menu_is_open q, body_overflow q) = (true, true, "hidden").
Proof. vm_compute. reflexivity. Qed.

Example trigger_click_closes :
  let q := run [UserClick [MenuToggle; header_wrapper; DocumentElement];
                UserClick [MenuToggle; header_wrapper; DocumentElement]]
             (load sample) in
  (aria_expanded q, menu_is_open q, body_overflow q) = (false, false, "").
Proof. vm_compute. reflexivity. Qed.

Example outside_click_closes :
  let q := run [UserClick [MenuToggle; header_wrapper; DocumentElement];
                UserClick [Other {["post"]}; DocumentElement]]
             (load sample) in
  (aria_expanded q, menu_is_open q, body_overflow q) = (false, false, "").
Proof. vm_compute. reflexivity. Qed.

Example resize_closes :
  let q := run [UserClick [MenuToggle; header_wrapper; DocumentElement];
                ViewportResize 1280]
             (load sample) in
  (aria_expanded q, menu_is_open q, body_overflow q) = (false, false, "").
Proof. vm_compute. reflexivity. Qed.

(** A click inside the header, off the trigger, leaves an open menu open. *)
Example inside_click_keeps :
  let q := run [UserClick [MenuToggle; header_wrapper; DocumentElement];
                UserClick [Other {["logo"]}; header_wrapper; DocumentElement]]
             (load sample) in
  (aria_expanded q, menu_is_open q, body_overflow q) = (true, true, "hidden").
Proof. vm_compute. reflexivity. Qed.

(** ** The menu: resize *)

(** C7.  With the menu trigger and container on the page: a resize to a
    width above 768 leaves the menu closed ([aria-expanded] "false", no
    [is-open], overflow empty) whatever it was, and changes nothing of an
    already closed menu; a resize to a width of at most 768 changes nothing
    of the menu. *)
Theorem resize_closes_above_threshold (p0 : page) (acts : list action) (w : Z) :
  menu_toggle p0 <> None ->
  header_menu p0 <> None ->
  let p := run acts (load p0) in
  let q := fire (ViewportResize w) p in
  (768 < w ->
   aria_expanded_value q = Some "false" /\ menu_is_open q = false /\
   body_overflow q = "") /\
  (768 < w ->
   aria_expanded_value p = Some "false" -> menu_is_open p = false ->
   body_overflow p = "" ->
   menu_state q = menu_state p) /\
  (w <= 768 -> menu_state q = menu_state p).
Proof.
  intros Hmt Hhm p q.
  destruct (reached acts p0) as [Hs Hsh]. fold p in Hs, Hsh.
  assert (Hq : q = invoke Window (Event Resize [])
                 [OnWindowResize MenuToggle HeaderMenu]
                 (set_stopped false (set_innerWidth w p))).
  { unfold q, fire, dispatch, route. cbn [type propagate].
    rewrite (listeners_for_resize p0) by exact Hsh.
    rewrite !present_true by assumption. cbn [andb].
    by destruct (propagation_stopped _). }
  clearbody q. subst q. clear Hs.
  rewrite shape_load in Hsh. unfold shape in Hsh.
  injection Hsh as _ Hmt' Hhm' _ _ _ _ _.
  rewrite (present_true (menu_toggle p0)) in Hmt' by assumption.
  rewrite (present_true (header_menu p0)) in Hhm' by assumption.
  clearbody p. clear Hmt Hhm.
  destruct p as [mt hm lt ld tg html ov w0 sto ls sp un]; simpl in Hmt', Hhm'.
  destruct mt as [mt|]; [|discriminate]. destruct hm as [hm|]; [|discriminate].
  observe; simpl.
  destruct (w >? 768) eqn:Hw; simpl; element_facts.
  - apply Z.gtb_lt in Hw. split; [done|]. split; [|lia].
    intros _ Ha Ho ->. by rewrite el_setAttribute_same, el_remove_absent.
  - assert (w <= 768) by (rewrite Z.gtb_ltb in Hw; lia).
    split; [lia|]. split; [lia | reflexivity].
Qed.

Lemma resize_closes_above_threshold_witness :
  let p := run [UserClick [MenuToggle; header_wrapper; DocumentElement]]
             (load sample) in
  let q := fire (ViewportResize 1024) p in
  menu_is_open p = true /\
  aria_expanded_value q = Some "false" /\ menu_is_open q = false /\
  body_overflow q = "".
Proof.
  split; [reflexivity|].
  apply (resize_closes_above_threshold sample
           [UserClick [MenuToggle; header_wrapper; DocumentElement]] 1024);
    [discriminate | discriminate | reflexivity].
Defined.

(** ** The language dropdown *)

(** A click first crosses the anonymous descendants of the element it is
    meant for; nothing listens there. *)
Lemma propagate_anonymous (e : event) (pre rt : list node) (p : page) :
  sound p -> propagation_stopped p = false -> Forall anonymous pre ->
  propagate e (pre ++ rt) p = propagate e rt p.
Proof.
  intros Hs Hp Hpre. induction Hpre as [|n pre Hn _ IH]; [reflexivity|].
  destruct n; try contradiction.
  cbn [app propagate]. rewrite listeners_for_other by exact Hs.
  cbn [invoke]. rewrite Hp. exact IH.
Qed.

(** C6, as stated, fails: the width is tested once, when the page loads.
    On a page loaded wide and then narrowed to 600, a click on the language
    toggle finds no listener: the dropdown keeps its class and the click
    travels on to the document. *)
Lemma lang_toggle_ignored_after_narrowing :
  let p := run [ViewportResize 600] (load wide) in
  let q := fire (UserClick [LangToggle; header_wrapper; DocumentElement]) p in
  innerWidth p = 600 /\
  dropdown_is_open q = dropdown_is_open p /\
  dropdown_is_open q <> negb (dropdown_is_open p) /\
  propagation_stopped q = false.
Proof. vm_compute. repeat split; discriminate. Qed.

(** C6, amended.  When both language elements exist and the viewport is at
    most 768 wide at initialization, a click on the language toggle (or on
    an anonymous element inside it), at any later time, toggles [is-open] on
    the dropdown and stops there: the menu's trigger, container and body
    overflow, the root element, the storage and the error log are what they
    were, and the click never reaches the document. *)
Theorem lang_toggle_click_is_local
    (p0 : page) (acts : list action) (pre post : list node) :
  lang_toggle p0 <> None ->
  lang_dropdown p0 <> None ->
  innerWidth p0 <= 768 ->
  Forall anonymous pre ->
  let p := run acts (load p0) in
  let q := fire (UserClick (pre ++ LangToggle :: post)) p in
  dropdown_is_open q = negb (dropdown_is_open p) /\
  menu_state q = menu_state p /\
  propagation_stopped q = true /\
  documentElement q = documentElement p /\
  localStorage q = localStorage p /\
  uncaught q = uncaught p.
Proof.
  intros Hlt Hld Hw Hpre p q.
  destruct (reached acts p0) as [Hs Hsh]. fold p in Hs, Hsh.
  set (e := Event Click (pre ++ LangToggle :: post)).
  assert (Hq : q = let p' := invoke LangToggle e
                              [OnLangToggleClick LangDropdown]
                              (set_stopped false p) in
                   if propagation_stopped p' then p'
                   else propagate e (post ++ [Document; Window]) p').
  { unfold q, fire, dispatch, route. fold e. cbn [type path e].
    rewrite <- app_assoc. rewrite propagate_anonymous;
      [|by apply sound_set_stopped | reflexivity | exact Hpre].
    cbn [app propagate type e].
    rewrite (listeners_for_lang_click p0) by exact Hsh.
    rewrite !present_true by assumption.
    apply Z.leb_le in Hw. rewrite Hw. reflexivity. }
  clearbody q. subst q. clear Hs.
  rewrite shape_load in Hsh. unfold shape in Hsh.
  injection Hsh as _ _ _ _ Hld' _ _ _.
  rewrite (present_true (lang_dropdown p0)) in Hld' by assumption.
  clearbody p. clearbody e.
  destruct p as [mt hm lt ld tg html ov w0 sto ls sp un]; simpl in Hld'.
  destruct ld as [ld|]; [|discriminate].
  observe; simpl. by rewrite el_contains_toggle.
Qed.

Lemma lang_toggle_click_is_local_witness :
  let p := run [UserClick [MenuToggle; header_wrapper; DocumentElement];
                ViewportResize 600] (load sample) in
  let q := fire (UserClick ([Other ∅] ++ LangToggle
                              :: [header_wrapper; DocumentElement])) p in
  dropdown_is_open q = negb (dropdown_is_open p) /\
  menu_state q = menu_state p /\
  propagation_stopped q = true /\
  documentElement q = documentElement p /\
  localStorage q = localStorage p /\
  uncaught q = uncaught p.
Proof.
  apply (lang_toggle_click_is_local sample);
    [discriminate | discriminate | vm_compute; discriminate
    | repeat constructor].
Defined.

(** ** The theme: root attribute and persisted value *)

Arguments opposite : simpl never.

Lemma opposite_cases (v : option string) :
  opposite v = "light" \/ opposite v = "dark".
Proof. unfold opposite. destruct (bool_decide _); auto. Qed.

Lemma or_default_opposite (v : option string) :
  or_default (Some (opposite v)) "light" = opposite v.
Proof. by destruct (opposite_cases v) as [-> | ->]. Qed.

Lemma theme_mirrored_invariant : invariant theme_mirrored.
Proof.
  split.
  - intros q [H _]. exact H.
  - intros q b (Hs & Hw & Hm). split; [by apply sound_set_stopped | by split].
  - intros q w (Hs & Hw & Hm). split; [by apply sound_set_innerWidth | by split].
  - intros l e q _ Hl Hr Ht He (Hs & Hw & Hm).
    split; [by apply sound_step|].
    clear Hs. revert Hw Hm. observe.
    by_listener Hl Ht He; on_ready_page e q Hr; element_facts;
      try (intros H1 H2; split; [exact H1 | exact H2]); try discriminate.
    intros _ _. split; [reflexivity|].
    by rewrite lookup_insert_eq, or_default_opposite.
Qed.

Lemma theme_equal_invariant : invariant theme_equal.
Proof.
  split.
  - intros q [H _]. exact H.
  - intros q b (Hs & Hw & Hm). split; [by apply sound_set_stopped | by split].
  - intros q w (Hs & Hw & Hm). split; [by apply sound_set_innerWidth | by split].
  - intros l e q _ Hl Hr Ht He (Hs & Hw & Hm).
    split; [by apply sound_step|].
    clear Hs. revert Hw Hm. observe.
    by_listener Hl Ht He; on_ready_page e q Hr; element_facts;
      try (intros H1 H2; split; [exact H1 | exact H2]); try discriminate.
    intros _ _. split; [reflexivity|].
    by rewrite lookup_insert_eq.
Qed.

Lemma theme_mirrored_load (p : page) :
  getItem_throws (localStorage p) = false ->
  setItem_throws (localStorage p) = false ->
  theme_mirrored (load p).
Proof.
  intros Hg Hw. split; [apply sound_load|].
  rewrite load_eq. observe; simpl. rewrite Hg. split; [exact Hw|].
  apply el_getAttribute_set_eq.
Qed.

(** A click that passes no theme toggle leaves the root element and the
    storage alone. *)
Lemma propagate_theme_frame (e : event) (rt : list node) (p : page) :
  sound p -> type e = Click -> ~ In ThemeToggle rt ->
  documentElement (propagate e rt p) = documentElement p /\
  localStorage (propagate e rt p) = localStorage p.
Proof.
  intros Hs He Hrt.
  enough (shape (propagate e rt p) = shape p /\
          documentElement (propagate e rt p) = documentElement p /\
          localStorage (propagate e rt p) = localStorage p) by tauto.
  apply (propagate_inv
           (fun q => shape q = shape p /\
                     documentElement q = documentElement p /\
                     localStorage q = localStorage p) e (listeners p)).
  - intros q [Hq _]. unfold shape in Hq. by injection Hq.
  - intros l q Hl Ht Hn (Hsh & Hd & Hst).
    destruct (Hs l Hl) as [Hl' _].
    assert (He' : type e <> DOMContentLoaded) by (rewrite He; discriminate).
    split; [rewrite step_shape; done|].
    rewrite <- Hd, <- Hst. clear Hd Hst Hsh Hl He.
    by_listener Hl' Ht He'; try (by destruct Hrt);
      on_page e q; split; reflexivity.
  - done.
Qed.

(** What the listener of the theme toggle writes, with a storage that takes
    the write and with one that refuses it. *)
Lemma theme_step (e : event) (p : page) :
  let p1 := step theme_listener e p in
  propagation_stopped p1 = propagation_stopped p /\
  shape p1 = shape p /\
  documentElement p1 =
    el_setAttribute "data-theme" (opposite (data_theme p)) (documentElement p) /\
  localStorage p1 =
    (if setItem_throws (localStorage p) then localStorage p
     else storage_set "theme" (opposite (data_theme p)) (localStorage p)) /\
  uncaught p1 =
    (if setItem_throws (localStorage p)
     then (uncaught p ++ [DOMException])%list
     else uncaught p).
Proof.
  destruct p as [mt hm lt ld tg html ov w [it gt st] ls sp un].
  simpl. destruct st; simpl; auto.
Qed.

(** A click on the theme toggle: its listener runs first, then the click
    bubbles on through the ancestors. *)
Lemma fire_theme_click (p0 p : page) (pre post : list node) :
  sound p -> shape p = shape (load p0) ->
  getItem_throws (localStorage p0) = false ->
  theme_toggle p0 <> None ->
  Forall anonymous pre ->
  let e := Event Click (pre ++ ThemeToggle :: post) in
  fire (UserClick (pre ++ ThemeToggle :: post)) p =
  propagate e (post ++ [Document; Window])
    (step theme_listener e (set_stopped false p)).
Proof.
  intros Hs Hsh Hg Htg Hpre e.
  unfold fire, dispatch, route. fold e.
  cbn [type path e]. rewrite <- app_assoc.
  rewrite propagate_anonymous;
    [|by apply sound_set_stopped | reflexivity | exact Hpre].
  cbn [app propagate type e].
  rewrite (listeners_for_theme_click p0) by exact Hsh.
  rewrite Hg, (present_true (theme_toggle p0)) by exact Htg.
  cbn [invoke].
  change (let (r, p') :=
            call (OnThemeToggleClick DocumentElement) ThemeToggle e
              (set_stopped false p) in report r p')
    with (step theme_listener e (set_stopped false p)).
  by destruct (theme_step e (set_stopped false p)) as (-> & _).
Qed.

(** What one click on the theme toggle does to the root element and to the
    storage, and that the page stays a page reached from the load. *)
Lemma theme_click_effect (p0 p : page) (pre post : list node) :
  sound p -> shape p = shape (load p0) ->
  getItem_throws (localStorage p0) = false ->
  theme_toggle p0 <> None ->
  Forall anonymous pre -> ~ In ThemeToggle post ->
  let q := fire (UserClick (pre ++ ThemeToggle :: post)) p in
  documentElement q =
    el_setAttribute "data-theme" (opposite (data_theme p)) (documentElement p) /\
  localStorage q =
    (if setItem_throws (localStorage p) then localStorage p
     else storage_set "theme" (opposite (data_theme p)) (localStorage p)) /\
  sound q /\ shape q = shape (load p0).
Proof.
  intros Hs Hsh Hg Htg Hpre Hpost q.
  assert (Hq : sound q /\ shape q = shape (load p0)).
  { apply (fire_inv _ _ p (shape_invariant (shape (load p0)))). by split. }
  enough (documentElement q =
            el_setAttribute "data-theme" (opposite (data_theme p))
              (documentElement p) /\
          localStorage q =
            (if setItem_throws (localStorage p) then localStorage p
             else storage_set "theme" (opposite (data_theme p))
                    (localStorage p))) by tauto.
  clear Hq. unfold q. rewrite (fire_theme_click p0) by assumption.
  set (e := Event Click _).
  destruct (theme_step e (set_stopped false p)) as (_ & Hsh1 & Hd & Hst & _).
  change (data_theme (set_stopped false p)) with (data_theme p) in Hd, Hst.
  change (documentElement (set_stopped false p)) with (documentElement p) in Hd.
  change (localStorage (set_stopped false p)) with (localStorage p) in Hst.
  rewrite <- Hd, <- Hst.
  apply propagate_theme_frame.
  - apply (sound_shape _ p); [exact Hsh1 | exact Hs].
  - reflexivity.
  - by intros [?|[?|[?|[]]]]%in_app_or.
Qed.

Lemma step_listeners (l : listener) (e : event) (q : page) :
  In l script_listeners -> on_type l = type e -> type e <> DOMContentLoaded ->
  listeners (step l e q) = listeners q.
Proof.
  intros Hl Ht He. pose proof (step_shape l e q Hl Ht He) as H.
  unfold shape in H. by injection H.
Qed.

(** Without a theme listener nothing touches the root element or the
    storage. *)
Lemma no_theme_listener_invariant (d : element) (s : Storage) :
  invariant (fun q => sound q /\ ~ In theme_listener (listeners q) /\
                      documentElement q = d /\ localStorage q = s).
Proof.
  split.
  - intros q [H _]. exact H.
  - intros q b (Hs & H). split; [by apply sound_set_stopped | exact H].
  - intros q w (Hs & H). split; [by apply sound_set_innerWidth | exact H].
  - intros l e q Hin Hl Hr Ht He (Hs & Hn & Hd & Hst).
    split; [by apply sound_step|].
    split; [by rewrite step_listeners|].
    rewrite <- Hd, <- Hst. clear Hd Hst Hs Hr.
    by_listener Hl Ht He; try (by destruct Hn);
      on_page e q; split; reflexivity.
Qed.

(** A storage that refuses writes keeps its content. *)
Lemma storage_kept_invariant (s : Storage) :
  setItem_throws s = true ->
  invariant (fun q => sound q /\ localStorage q = s).
Proof.
  intros Hthrows. split.
  - intros q [H _]. exact H.
  - intros q b (Hs & H). split; [by apply sound_set_stopped | exact H].
  - intros q w (Hs & H). split; [by apply sound_set_innerWidth | exact H].
  - intros l e q Hin Hl Hr Ht He (Hs & Hst).
    split; [by apply sound_step|].
    subst s. clear Hs Hr Hin. revert Hthrows.
    by_listener Hl Ht He; on_page e q; try reflexivity; discriminate.
Qed.

(** ** The theme: statements *)

(** C1, as stated, fails: after an initialization with nothing stored the
    root attribute is "light" while the storage still holds no theme. *)
Lemma theme_storage_differs_after_first_load :
  uncaught (load sample) = [] /\
  stored_theme sample = None /\
  data_theme (load sample) = Some "light" /\
  stored_theme (load sample) = None /\
  data_theme (load sample) <> stored_theme (load sample).
Proof. vm_compute. repeat split; discriminate. Qed.

(** C1, amended.  With a storage that can be read and written: at all
    times after initialization the root attribute is the stored theme, or
    "light" when none (or an empty one) is stored; initialization does not
    write to the storage; and once the theme toggle has been clicked the
    root attribute and the stored theme are equal at all times. *)
Theorem theme_attribute_mirrors_storage
    (p0 : page) (acts acts' : list action) (pre post : list node) :
  getItem_throws (localStorage p0) = false ->
  setItem_throws (localStorage p0) = false ->
  let p := run acts (load p0) in
  data_theme p = Some (or_default (stored_theme p) "light") /\
  stored_theme (load p0) = stored_theme p0 /\
  (theme_toggle p0 <> None -> Forall anonymous pre ->
   let q := run acts' (fire (UserClick (pre ++ ThemeToggle :: post)) p) in
   data_theme q = stored_theme q).
Proof.
  intros Hg Hw p.
  assert (Hp : theme_mirrored p).
  { apply run_inv; [apply theme_mirrored_invariant|].
    by apply theme_mirrored_load. }
  split; [apply Hp|]. split; [by rewrite load_eq|].
  intros Htg Hpre q.
  enough (Hq : theme_equal q) by apply Hq.
  apply run_inv; [apply theme_equal_invariant|].
  destruct (reached acts p0) as [Hs Hsh]. fold p in Hs, Hsh.
  rewrite (fire_theme_click p0) by assumption.
  set (e := Event Click _).
  apply propagate_invariant; [apply theme_equal_invariant | discriminate |].
  destruct (theme_step e (set_stopped false p)) as (_ & Hsh1 & Hd & Hst & _).
  destruct Hp as (_ & Hw' & _).
  change (localStorage (set_stopped false p)) with (localStorage p) in Hst.
  rewrite Hw' in Hst.
  split; [apply (sound_shape _ p); [exact Hsh1 | exact Hs]|].
  unfold data_theme at 1, stored_theme. rewrite Hd, Hst. split; [exact Hw'|].
  rewrite el_getAttribute_set_eq. simpl. by rewrite lookup_insert_eq.
Qed.

Lemma theme_attribute_mirrors_storage_witness :
  let p := run [theme_click] (load sample) in
  data_theme p = Some (or_default (stored_theme p) "light") /\
  stored_theme (load sample) = stored_theme sample /\
  let q := run [ViewportResize 900]
             (fire (UserClick ([Other ∅] ++ ThemeToggle :: [DocumentElement])) p) in
  data_theme q = stored_theme q.
Proof.
  destruct (theme_attribute_mirrors_storage sample [theme_click]
              [ViewportResize 900] [Other ∅] [DocumentElement]
              eq_refl eq_refl) as (H1 & H2 & H3).
  split; [exact H1|]. split; [exact H2|].
  apply H3; [discriminate | repeat constructor].
Defined.

(** C5, as stated, fails: on the first visit nothing is stored; two clicks
    bring the root attribute back to "light" but leave "light" stored. *)
Lemma two_toggles_leave_light_stored :
  let p := load sample in
  let q := fire theme_click (fire theme_click p) in
  data_theme q = data_theme p /\
  stored_theme p = None /\ stored_theme q = Some "light" /\
  stored_theme q <> stored_theme p.
Proof. vm_compute. repeat split; discriminate. Qed.

(** C5, amended.  With a storage that can be read and written, on any page
    reached after initialization whose stored theme is "light" or "dark"
    (any page on which the toggle was clicked before), two clicks on the
    theme toggle bring the root attribute and the stored theme back to what
    they were.  When no theme is stored yet, two clicks bring the root
    attribute back to "light" and leave "light" stored. *)
Theorem theme_toggle_twice
    (p0 : page) (acts : list action) (pre1 post1 pre2 post2 : list node) :
  getItem_throws (localStorage p0) = false ->
  setItem_throws (localStorage p0) = false ->
  theme_toggle p0 <> None ->
  Forall anonymous pre1 -> ~ In ThemeToggle post1 ->
  Forall anonymous pre2 -> ~ In ThemeToggle post2 ->
  let p := run acts (load p0) in
  let q := fire (UserClick (pre2 ++ ThemeToggle :: post2))
             (fire (UserClick (pre1 ++ ThemeToggle :: post1)) p) in
  (stored_theme p = Some "light" \/ stored_theme p = Some "dark" ->
   data_theme q = data_theme p /\ stored_theme q = stored_theme p) /\
  (stored_theme p = None ->
   data_theme q = data_theme p /\ stored_theme q = Some "light").
Proof.
  intros Hg Hw Htg Hpre1 Hpost1 Hpre2 Hpost2 p q.
  assert (Hp : theme_mirrored p).
  { apply run_inv; [apply theme_mirrored_invariant|].
    by apply theme_mirrored_load. }
  destruct Hp as (_ & Hw' & Hm).
  destruct (reached acts p0) as [Hs Hsh]. fold p in Hs, Hsh.
  destruct (theme_click_effect p0 p pre1 post1) as (Hd1 & Hst1 & Hs1 & Hsh1);
    try assumption.
  set (q1 := fire (UserClick (pre1 ++ ThemeToggle :: post1)) p) in *.
  destruct (theme_click_effect p0 q1 pre2 post2) as (Hd2 & Hst2 & _);
    try assumption.
  fold q in Hd2, Hst2.
  rewrite Hw' in Hst1. rewrite Hst1 in Hst2. simpl in Hst2. rewrite Hw' in Hst2.
  assert (H1 : data_theme q1 = Some (opposite (data_theme p)))
    by (unfold data_theme at 1; rewrite Hd1; apply el_getAttribute_set_eq).
  assert (Hq : data_theme q = Some (opposite (data_theme q1)))
    by (unfold data_theme at 1; rewrite Hd2; apply el_getAttribute_set_eq).
  assert (Hsq : stored_theme q = Some (opposite (data_theme q1)))
    by (unfold stored_theme; rewrite Hst2; simpl; apply lookup_insert_eq).
  rewrite Hq, Hsq, H1, Hm.
  split; [intros [-> | ->] | intros ->]; split; reflexivity.
Qed.

Lemma theme_toggle_twice_witness :
  let p := run [theme_click] (load sample) in
  let q := fire (UserClick ([] ++ ThemeToggle :: [DocumentElement]))
             (fire (UserClick ([Other ∅] ++ ThemeToggle :: [DocumentElement])) p) in
  stored_theme p = Some "dark" /\
  data_theme q = data_theme p /\ stored_theme q = stored_theme p.
Proof.
  split; [reflexivity|].
  refine (proj1 (theme_toggle_twice sample [theme_click]
                   [Other ∅] [DocumentElement] [] [DocumentElement]
                   eq_refl eq_refl _ _ _ _ _) _).
  - discriminate.
  - repeat constructor.
  - intros [H|[]]; discriminate H.
  - constructor.
  - intros [H|[]]; discriminate H.
  - right; reflexivity.
Defined.

(** C2, as stated, fails: when the storage refuses reads, initialization
    stops with an uncaught exception before it sets the root attribute, and
    a later click on the theme toggle changes nothing. *)
Lemma theme_controller_stops_on_blocked_storage :
  getItem_throws (localStorage blocked) = true /\
  uncaught (load blocked) = [DOMException] /\
  data_theme (load blocked) <> Some "light" /\
  data_theme (fire theme_click (load blocked)) = data_theme (load blocked).
Proof. vm_compute. repeat split; discriminate. Qed.

Lemma no_theme_listener_load (p : page) :
  getItem_throws (localStorage p) = true ->
  ~ In theme_listener (listeners (load p)).
Proof.
  intros Hg. rewrite load_eq; cbn [listeners].
  unfold menu_listeners, dropdown_listeners, theme_listeners. rewrite Hg.
  destruct (present (menu_toggle p) && present (header_menu p)),
    (present (lang_toggle p) && present (lang_dropdown p)
       && (innerWidth p <=? 768));
    simpl; intuition discriminate.
Qed.

(** A listener other than the one of the theme toggle, with its elements
    on the page and, for a click, an element as target, raises nothing. *)
Lemma step_quiet (l : listener) (e : event) (q : page) :
  In l script_listeners -> ready l q -> on_type l = type e ->
  type e <> DOMContentLoaded ->
  (type e = Click -> path e <> []) ->
  l <> theme_listener ->
  uncaught (step l e q) = uncaught q.
Proof.
  intros Hl Hr Ht He Hp Hn.
  assert (Hp' : on_type l = Click -> path e <> [])
    by (intros H; apply Hp; congruence).
  clear Hp. revert Hp'.
  by_listener Hl Ht He; try (by destruct Hn);
    on_ready_page e q Hr; intros Hp; try reflexivity.
  all: by destruct Hp.
Qed.

(** A click on an element that passes no theme toggle adds nothing to the
    error log. *)
Lemma propagate_uncaught_frame (e : event) (rt : list node) (p : page) :
  sound p -> type e = Click -> path e <> [] -> ~ In ThemeToggle rt ->
  uncaught (propagate e rt p) = uncaught p.
Proof.
  intros Hs He Hp Hrt.
  enough (shape (propagate e rt p) = shape p /\
          uncaught (propagate e rt p) = uncaught p) by tauto.
  apply (propagate_inv
           (fun q => shape q = shape p /\ uncaught q = uncaught p)
           e (listeners p)).
  - intros q [Hq _]. unfold shape in Hq. by injection Hq.
  - intros l q Hl Ht Hn (Hsh & Hu).
    destruct (Hs l Hl) as [Hl' _].
    assert (He' : type e <> DOMContentLoaded) by (rewrite He; discriminate).
    assert (Hr : ready l q).
    { destruct (sound_shape q p Hsh Hs l) as [_ Hr]; [|exact Hr].
      unfold shape in Hsh. injection Hsh as -> _. exact Hl. }
    split; [rewrite step_shape; done|].
    rewrite <- Hu. apply step_quiet; try done.
    intros ->. by apply Hrt.
  - done.
Qed.

(** C2, amended.  When the storage refuses reads, initialization stops at
    the read with an uncaught exception: the root element is left as the
    markup had it, no theme listener is attached, and at no later time is
    the root element or the storage written.  When the storage refuses only
    writes, initialization completes and sets the root attribute to the
    stored theme or "light"; every click on the theme toggle flips the root
    attribute, the refused write escapes the listener as an exception, and
    the storage keeps its content. *)
Theorem theme_with_failing_storage
    (p0 : page) (acts : list action) (pre post : list node) :
  (getItem_throws (localStorage p0) = true ->
   uncaught (load p0) = [DOMException] /\
   listeners_for ThemeToggle Click (load p0) = [] /\
   let p := run acts (load p0) in
   documentElement p = documentElement p0 /\
   localStorage p = localStorage p0) /\
  (getItem_throws (localStorage p0) = false ->
   setItem_throws (localStorage p0) = true ->
   uncaught (load p0) = [] /\
   data_theme (load p0) = Some (or_default (stored_theme p0) "light") /\
   let p := run acts (load p0) in
   localStorage p = localStorage p0 /\
   (theme_toggle p0 <> None ->
    Forall anonymous pre -> ~ In ThemeToggle post ->
    let q := fire (UserClick (pre ++ ThemeToggle :: post)) p in
    data_theme q = Some (opposite (data_theme p)) /\
    localStorage q = localStorage p0 /\
    uncaught q = (uncaught p ++ [DOMException])%list)).
Proof.
  split.
  - intros Hg. split; [by rewrite load_eq, Hg|].
    split; [by rewrite (listeners_for_theme_click p0), Hg|].
    intros p.
    enough (H : sound p /\ ~ In theme_listener (listeners p) /\
                documentElement p = documentElement p0 /\
                localStorage p = localStorage p0) by tauto.
    apply run_inv; [apply no_theme_listener_invariant|].
    split; [apply sound_load|]. split; [by apply no_theme_listener_load|].
    by rewrite load_eq, Hg.
  - intros Hg Hw. split; [by rewrite load_eq, Hg|].
    split; [rewrite load_eq, Hg; apply el_getAttribute_set_eq|].
    intros p.
    assert (Hst : sound p /\ localStorage p = localStorage p0).
    { apply run_inv; [by apply storage_kept_invariant|].
      split; [apply sound_load | by rewrite load_eq]. }
    destruct Hst as [Hs Hst]. split; [exact Hst|].
    intros Htg Hpre Hpost q.
    destruct (reached acts p0) as [_ Hsh]. fold p in Hsh.
    destruct (theme_click_effect p0 p pre post) as (Hd & Hst' & _);
      try assumption.
    fold q in Hd, Hst'. rewrite Hst, Hw in Hst'.
    split; [unfold data_theme at 1; rewrite Hd; apply el_getAttribute_set_eq|].
    split; [exact Hst'|].
    unfold q. rewrite (fire_theme_click p0) by assumption.
    set (e := Event Click (pre ++ ThemeToggle :: post)).
    destruct (theme_step e (set_stopped false p)) as (_ & Hsh1 & _ & _ & Hu).
    change (localStorage (set_stopped false p)) with (localStorage p) in Hu.
    change (uncaught (set_stopped false p)) with (uncaught p) in Hu.
    rewrite Hst, Hw in Hu. rewrite <- Hu.
    apply propagate_uncaught_frame.
    + apply (sound_shape _ p); [exact Hsh1 | exact Hs].
    + reflexivity.
    + simpl. by destruct pre.
    + by intros [?|[?|[?|[]]]]%in_app_or.
Qed.

Lemma theme_with_failing_storage_witness :
  (uncaught (load blocked) = [DOMException] /\
   listeners_for ThemeToggle Click (load blocked) = [] /\
   let p := run [theme_click] (load blocked) in
   documentElement p = documentElement blocked /\
   localStorage p = localStorage blocked) /\
  (uncaught (load read_only) = [] /\
   data_theme (load read_only) =
     Some (or_default (stored_theme read_only) "light") /\
   let p := run [theme_click] (load read_only) in
   localStorage p = localStorage read_only /\
   let q := fire (UserClick ([] ++ ThemeToggle :: [DocumentElement])) p in
   data_theme q = Some (opposite (data_theme p)) /\
   localStorage q = localStorage read_only /\
   uncaught q = (uncaught p ++ [DOMException])%list).
Proof.
  split.
  - exact (proj1 (theme_with_failing_storage blocked [theme_click] [] [])
             eq_refl).
  - destruct (proj2 (theme_with_failing_storage read_only [theme_click]
                       [] [DocumentElement]) eq_refl eq_refl)
      as (H1 & H2 & H3 & H4).
    split; [exact H1|]. split; [exact H2|]. split; [exact H3|].
    apply H4.
    + discriminate.
    + constructor.
    + intros [H|[]]; discriminate H.
Defined.

(** C8.  When the storage can be read and holds no theme, loading the page
    sets [data-theme] to "light" on the root element, before any action of
    the user, and raises nothing. *)
Theorem default_theme_is_light (p : page) :
  getItem_throws (localStorage p) = false ->
  stored_theme p = None ->
  data_theme (load p) = Some "light" /\ uncaught (load p) = [].
Proof.
  intros Hg Hn. rewrite load_eq. unfold data_theme; simpl.
  rewrite Hg, Hn. split; [apply el_getAttribute_set_eq | reflexivity].
Qed.

Lemma default_theme_is_light_witness :
  data_theme (load sample) = Some "light" /\ uncaught (load sample) = [].
Proof. apply (default_theme_is_light sample); reflexivity. Defined.

(** ** Missing elements *)

(** C9.  When the menu trigger or the menu container is missing, the menu
    controller does nothing at all and raises nothing; after the load no
    listener of the menu is registered (none for clicks on the trigger, for
    clicks on the document or for resizes of the window), and the load
    raises nothing as long as the storage can be read. *)
Theorem menu_controller_without_elements (p : page) :
  menu_toggle p = None \/ header_menu p = None ->
  menu_controller p = (Ok tt, p) /\
  (forall l, In l (listeners (load p)) -> ~ menu_handler (callback l)) /\
  listeners_for MenuToggle Click (load p) = [] /\
  listeners_for Document Click (load p) = [] /\
  listeners_for Window Resize (load p) = [] /\
  (getItem_throws (localStorage p) = false -> uncaught (load p) = []).
Proof.
  intros Hm.
  assert (Hb : present (menu_toggle p) && present (header_menu p) = false)
    by (destruct Hm as [-> | ->]; [reflexivity | apply andb_false_r]).
  split.
  { rewrite menu_controller_eq. unfold menu_listeners. rewrite Hb.
    destruct p; simpl. by rewrite app_nil_r. }
  split.
  { rewrite load_eq; cbn [listeners].
    unfold menu_listeners, dropdown_listeners, theme_listeners. rewrite Hb.
    intros l.
    destruct (present (lang_toggle p) && present (lang_dropdown p)
                && (innerWidth p <=? 768)),
      (getItem_throws (localStorage p)), (present (theme_toggle p));
      simpl; intuition (subst; auto). }
  rewrite (listeners_for_menu_click p), (listeners_for_document_click p),
    (listeners_for_resize p), Hb by reflexivity.
  repeat (split; [reflexivity|]).
  intros Hg. by rewrite load_eq, Hg.
Qed.

Lemma menu_controller_without_elements_witness :
  menu_controller without_trigger = (Ok tt, without_trigger) /\
  (forall l, In l (listeners (load without_trigger)) ->
             ~ menu_handler (callback l)) /\
  listeners_for MenuToggle Click (load without_trigger) = [] /\
  listeners_for Document Click (load without_trigger) = [] /\
  listeners_for Window Resize (load without_trigger) = [] /\
  uncaught (load without_trigger) = [].
Proof.
  destruct (menu_controller_without_elements without_trigger
              (or_introl eq_refl)) as (H1 & H2 & H3 & H4 & H5 & H6).
  repeat (split; [assumption|]). by apply H6.
Defined.

(** C10.  When the page has no theme toggle and the storage can be read,
    loading the page still sets [data-theme] on the root element to the
    stored theme, or to "light" when none is stored; only the click listener
    is not registered, and nothing is raised. *)
Theorem theme_applied_without_toggle (p : page) :
  theme_toggle p = None ->
  getItem_throws (localStorage p) = false ->
  data_theme (load p) = Some (or_default (stored_theme p) "light") /\
  listeners_for ThemeToggle Click (load p) = [] /\
  (forall l, In l (listeners (load p)) -> l <> theme_listener) /\
  uncaught (load p) = [].
Proof.
  intros Htg Hg.
  split; [rewrite load_eq, Hg; apply el_getAttribute_set_eq|].
  split; [by rewrite (listeners_for_theme_click p), Hg, Htg|].
  split; [|by rewrite load_eq, Hg].
  rewrite load_eq; cbn [listeners].
  unfold menu_listeners, dropdown_listeners, theme_listeners.
  rewrite Hg, Htg. intros l.
  destruct (present (menu_toggle p) && present (header_menu p)),
    (present (lang_toggle p) && present (lang_dropdown p)
       && (innerWidth p <=? 768));
    simpl; intuition (subst; discriminate).
Qed.

Lemma theme_applied_without_toggle_witness :
  data_theme (load without_theme_toggle) = Some "dark" /\
  listeners_for ThemeToggle Click (load without_theme_toggle) = [] /\
  (forall l, In l (listeners (load without_theme_toggle)) ->
             l <> theme_listener) /\
  uncaught (load without_theme_toggle) = [].
Proof.
  apply (theme_applied_without_toggle without_theme_toggle); reflexivity.
Defined.

(** * Further properties of the script *)

(** ** More facts about elements *)

Lemma el_contains_toggle_ne (cls c : string) (e : element) :
  cls <> c -> el_contains cls (el_toggle c e) = el_contains cls e.
Proof.
  intros Hne. unfold el_toggle. destruct (el_contains c e);
    unfold el_contains, el_remove, el_add; simpl; apply bool_decide_ext.
  - rewrite elem_of_difference, elem_of_singleton. tauto.
  - rewrite elem_of_union, elem_of_singleton. tauto.
Qed.

Lemma el_contains_remove_ne (cls c : string) (e : element) :
  cls <> c -> el_contains cls (el_remove c e) = el_contains cls e.
Proof.
  intros Hne. unfold el_contains, el_remove; simpl. apply bool_decide_ext.
  rewrite elem_of_difference, elem_of_singleton. tauto.
Qed.

Lemma el_toggle_twice (c : string) (e : element) :
  el_toggle c (el_toggle c e) = e.
Proof.
  assert (H2 := el_contains_toggle c e).
  unfold el_toggle at 1. rewrite H2. unfold el_toggle.
  destruct (el_contains c e) eqn:H1; simpl;
    unfold el_contains in H1;
    (apply bool_decide_eq_true in H1 || apply bool_decide_eq_false in H1);
    destruct e as [a cl]; unfold el_remove, el_add; simpl in *; f_equal;
    apply set_eq; intros x;
    rewrite ?elem_of_difference, ?elem_of_union, ?elem_of_difference,
      ?elem_of_singleton.
  - split; [intros [Hx| ->]; [tauto | exact H1]|]. intros Hx.
    destruct (decide (x = c)); [by right | left; tauto].
  - split; [tauto|]. intros Hx. split; [by left|]. by intros ->.
Qed.

(** ** More facts about the dispatcher *)

Lemma propagate_app (e : event) (r1 r2 : list node) (p : page) :
  propagation_stopped p = false ->
  propagate e (r1 ++ r2) p =
  let p1 := propagate e r1 p in
  if propagation_stopped p1 then p1 else propagate e r2 p1.
Proof.
  revert p. induction r1 as [|cur rest IH]; intros p Hp; cbn [app propagate].
  - cbv zeta. by rewrite Hp.
  - destruct (propagation_stopped (invoke cur e _ p)) eqn:Hs.
    + cbv zeta. by rewrite Hs.
    + by apply IH.
Qed.

Lemma listeners_for_window_click (p0 q : page) :
  shape q = shape (load p0) -> listeners_for Window Click q = [].
Proof. intros H. table_lookup p0 H. Qed.

(** The listeners that a click can run. *)
Lemma click_listener_cases (l : listener) (e : event) :
  In l script_listeners -> on_type l = type e -> type e = Click ->
  l = menu_listener \/ l = document_listener \/
  l = lang_listener \/ l = theme_listener.
Proof.
  simpl. intros [<-|[<-|[<-|[<-|[<-|[<-|[]]]]]]] Ht He; simpl in Ht;
    try congruence; tauto.
Qed.

Ltac by_click_listener Hl Ht He :=
  destruct (click_listener_cases _ _ Hl Ht He) as [->|[->|[->| ->]]];
  unfold menu_listener, document_listener, lang_listener, theme_listener;
  clear Hl Ht He.

(** No listener changes which elements are of class [header-wrapper]. *)
Lemma matches_step (l : listener) (e : event) (q : page) (n : node) :
  In l script_listeners -> on_type l = type e -> type e <> DOMContentLoaded ->
  matches "header-wrapper" (step l e q) n = matches "header-wrapper" q n.
Proof.
  intros Hl Ht He. by_listener Hl Ht He; on_page e q;
    destruct n; unfold matches; simpl; try reflexivity;
    rewrite ?el_contains_toggle_ne, ?el_contains_remove_ne by discriminate;
    reflexivity.
Qed.

Lemma closest_step (l : listener) (e : event) (q : page) (pth : list node) :
  In l script_listeners -> on_type l = type e -> type e <> DOMContentLoaded ->
  closest "header-wrapper" pth (step l e q) = closest "header-wrapper" pth q.
Proof.
  intros Hl Ht He. unfold closest.
  induction pth as [|n pth IH]; [reflexivity|].
  cbn [existsb]. by rewrite IH, matches_step.
Qed.

(** Only the listener of the language toggle stops the propagation. *)
Lemma step_stopped (l : listener) (e : event) (q : page) :
  In l script_listeners -> on_type l = type e -> type e <> DOMContentLoaded ->
  l <> lang_listener ->
  propagation_stopped (step l e q) = propagation_stopped q.
Proof.
  intros Hl Ht He Hn. by_listener Hl Ht He; try (by destruct Hn);
    on_page e q; reflexivity.
Qed.

(** ** The menu: clicks *)

(** A click inside the header that passes no menu trigger leaves the menu
    alone, however far it bubbles. *)
Lemma propagate_menu_frame (e : event) (rt : list node) (p : page) :
  sound p -> type e = Click -> ~ In MenuToggle rt ->
  inside_header (path e) p = true ->
  menu_state (propagate e rt p) = menu_state p.
Proof.
  intros Hs He Hrt Hin. unfold inside_header in Hin.
  enough (shape (propagate e rt p) = shape p /\
          menu_state (propagate e rt p) = menu_state p /\
          closest "header-wrapper" (path e) (propagate e rt p) = true) by tauto.
  apply (propagate_inv
           (fun q => shape q = shape p /\
                     menu_state q = menu_state p /\
                     closest "header-wrapper" (path e) q = true)
           e (listeners p)).
  - intros q [Hq _]. unfold shape in Hq. by injection Hq.
  - intros l q Hl Ht Hn (Hsh & Hm & Hc).
    destruct (Hs l Hl) as [Hl' _].
    assert (He' : type e <> DOMContentLoaded) by (rewrite He; discriminate).
    split; [rewrite step_shape; done|].
    split; [|by rewrite closest_step].
    rewrite <- Hm. clear Hm Hsh Hl Hin. revert Hc. unfold menu_state.
    by_click_listener Hl' Ht He; try (by destruct Hrt);
      on_page e q; try reflexivity; discriminate.
  - done.
Qed.

(** X3.  At any time after the load, a click inside the header wrapper that
    passes no menu trigger leaves the trigger, the menu container and the
    body overflow exactly as they were. *)
Theorem click_inside_header_keeps_menu
    (p0 : page) (acts : list action) (pth : list node) :
  ~ In MenuToggle pth ->
  inside_header pth (run acts (load p0)) = true ->
  menu_state (fire (UserClick pth) (run acts (load p0))) =
  menu_state (run acts (load p0)).
Proof.
  intros Hpth Hin.
  destruct (reached acts p0) as [Hs _].
  unfold fire, dispatch, route; cbn [type path].
  change (menu_state (run acts (load p0)))
    with (menu_state (set_stopped false (run acts (load p0)))).
  apply propagate_menu_frame.
  - by apply sound_set_stopped.
  - reflexivity.
  - by intros [?|[?|[?|[]]]]%in_app_or.
  - exact Hin.
Qed.

Lemma click_inside_header_keeps_menu_witness :
  let p := run [UserClick [MenuToggle; header_wrapper; DocumentElement]]
             (load sample) in
  menu_is_open p = true /\
  menu_state (fire (UserClick [Other {["logo"]}; header_wrapper;
                               DocumentElement]) p) = menu_state p.
Proof.
  split; [reflexivity|].
  apply (click_inside_header_keeps_menu sample
           [UserClick [MenuToggle; header_wrapper; DocumentElement]]).
  - intros [H|[H|[H|[]]]]; discriminate H.
  - reflexivity.
Defined.

(** A click on the menu trigger: its listener runs first, then the click
    bubbles on through the ancestors. *)
Lemma fire_menu_click (p0 p : page) (pre post : list node) :
  sound p -> shape p = shape (load p0) ->
  menu_toggle p0 <> None -> header_menu p0 <> None ->
  Forall anonymous pre ->
  let e := Event Click (pre ++ MenuToggle :: post) in
  fire (UserClick (pre ++ MenuToggle :: post)) p =
  propagate e (post ++ [Document; Window])
    (step menu_listener e (set_stopped false p)).
Proof.
  intros Hs Hsh Hmt Hhm Hpre e.
  unfold fire, dispatch, route. fold e.
  cbn [type path e]. rewrite <- app_assoc.
  rewrite propagate_anonymous;
    [|by apply sound_set_stopped | reflexivity | exact Hpre].
  cbn [app propagate type e].
  rewrite (listeners_for_menu_click p0) by exact Hsh.
  rewrite !present_true by assumption.
  cbn [andb invoke].
  change (let (r, p') :=
            call (OnMenuToggleClick HeaderMenu) MenuToggle e
              (set_stopped false p) in report r p')
    with (step menu_listener e (set_stopped false p)).
  rewrite step_stopped;
    [reflexivity | simpl; tauto | reflexivity | discriminate | discriminate].
Qed.

(** What a click on the menu trigger, inside the header wrapper, does to a
    page that has the listeners of the load. *)
Lemma menu_click_effect (p0 p : page) (pre post : list node) :
  sound p -> shape p = shape (load p0) ->
  menu_toggle p0 <> None ->
  header_menu p0 <> None ->
  Forall anonymous pre ->
  ~ In MenuToggle post ->
  inside_header (pre ++ MenuToggle :: post) p = true ->
  let q := fire (UserClick (pre ++ MenuToggle :: post)) p in
  aria_expanded q = negb (aria_expanded p) /\
  menu_is_open q = negb (menu_is_open p) /\
  body_overflow q = (if aria_expanded p then "" else "hidden").
Proof.
  intros Hs Hsh Hmt Hhm Hpre Hpost Hin q.
  set (e := Event Click (pre ++ MenuToggle :: post)).
  set (p1 := step menu_listener e (set_stopped false p)).
  assert (Hq : menu_state q = menu_state p1).
  { unfold q. rewrite (fire_menu_click p0) by assumption. fold e p1.
    apply propagate_menu_frame.
    - apply (sound_shape _ p); [|exact Hs].
      unfold p1.
      rewrite step_shape; [reflexivity | simpl; tauto | reflexivity | discriminate].
    - reflexivity.
    - by intros [?|[?|[?|[]]]]%in_app_or.
    - unfold inside_header, p1.
      rewrite closest_step;
        [exact Hin | simpl; tauto | reflexivity | discriminate]. }
  assert (H1 : aria_expanded p1 = negb (aria_expanded p) /\
               menu_is_open p1 = negb (menu_is_open p) /\
               body_overflow p1 = (if aria_expanded p then "" else "hidden")).
  { rewrite shape_load in Hsh. unfold shape in Hsh.
    injection Hsh as _ Hmt' Hhm' _ _ _ _ _.
    rewrite (present_true (menu_toggle p0)) in Hmt' by assumption.
    rewrite (present_true (header_menu p0)) in Hhm' by assumption.
    unfold p1. clearbody e. clear -Hmt' Hhm'.
    destruct p as [mt hm lt ld tg html ov w0 sto ls sp un]; simpl in Hmt', Hhm'.
    destruct mt as [mt|]; [|discriminate]. destruct hm as [hm|]; [|discriminate].
    observe; simpl. element_facts.
    by destruct (bool_decide (el_getAttribute "aria-expanded" mt = _)). }
  unfold menu_state in Hq. injection Hq as Hq1 Hq2 Hq3.
  unfold aria_expanded, menu_is_open in *. rewrite Hq1, Hq2, Hq3. exact H1.
Qed.


(** X1.  With the trigger and the container on the page, at any time after
    the load, a click on the menu trigger (or on an anonymous element inside
    it) that is inside the header wrapper flips [aria-expanded] and the
    [is-open] class, and sets the body overflow to "hidden" when it opens
    and to the empty string when it closes: the document listener sees the
    same click and leaves the menu alone. *)
Theorem trigger_click_toggles
    (p0 : page) (acts : list action) (pre post : list node) :
  menu_toggle p0 <> None ->
  header_menu p0 <> None ->
  Forall anonymous pre ->
  ~ In MenuToggle post ->
  inside_header (pre ++ MenuToggle :: post) (run acts (load p0)) = true ->
  let p := run acts (load p0) in
  let q := fire (UserClick (pre ++ MenuToggle :: post)) p in
  aria_expanded q = negb (aria_expanded p) /\
  menu_is_open q = negb (menu_is_open p) /\
  body_overflow q = (if aria_expanded p then "" else "hidden").
Proof.
  intros Hmt Hhm Hpre Hpost Hin p q.
  destruct (reached acts p0) as [Hs Hsh].
  by apply (menu_click_effect p0).
Qed.

Lemma trigger_click_toggles_witness :
  let p := run [ViewportResize 500] (load sample) in
  let q := fire (UserClick ([Other {["icon"]}] ++ MenuToggle
                              :: [header_wrapper; DocumentElement])) p in
  aria_expanded q = negb (aria_expanded p) /\
  menu_is_open q = negb (menu_is_open p) /\
  body_overflow q = (if aria_expanded p then "" else "hidden").
Proof.
  apply (trigger_click_toggles sample [ViewportResize 500]).
  - discriminate.
  - discriminate.
  - repeat constructor.
  - intros [H|[H|[]]]; discriminate H.
  - reflexivity.
Defined.

(** At the document, a click runs the dismissal listener and nothing more. *)
Lemma propagate_document_window (p0 p : page) (e : event) :
  shape p = shape (load p0) -> type e = Click ->
  menu_toggle p0 <> None -> header_menu p0 <> None ->
  propagate e [Document; Window] p = step document_listener e p.
Proof.
  intros Hsh He Hmt Hhm. cbn [propagate]. rewrite He.
  rewrite (listeners_for_document_click p0) by exact Hsh.
  rewrite !present_true by assumption. cbn [andb invoke].
  change (let (r, p') :=
            call (OnDocumentClick MenuToggle HeaderMenu) Document e p in
          report r p')
    with (step document_listener e p).
  rewrite (listeners_for_window_click p0).
  - cbn [invoke]. by destruct (propagation_stopped _).
  - rewrite step_shape;
      [exact Hsh | simpl; tauto | by rewrite He | rewrite He; discriminate].
Qed.

(** What a click outside the header wrapper does to a page that has the
    listeners of the load. *)
Lemma outside_click_effect (p0 p : page) (pth : list node) :
  sound p -> shape p = shape (load p0) ->
  menu_toggle p0 <> None ->
  header_menu p0 <> None ->
  pth <> [] ->
  ~ In LangToggle pth ->
  inside_header pth p = false ->
  let q := fire (UserClick pth) p in
  aria_expanded_value q = Some "false" /\
  menu_is_open q = false /\
  body_overflow q = "".
Proof.
  intros Hs Hsh Hmt Hhm Hne Hlang Hout q.
  set (e := Event Click pth).
  set (p' := set_stopped false p).
  assert (H1 : shape (propagate e pth p') = shape p' /\
               propagation_stopped (propagate e pth p') = false /\
               closest "header-wrapper" pth (propagate e pth p') = false).
  { apply (propagate_inv
             (fun r => shape r = shape p' /\
                       propagation_stopped r = false /\
                       closest "header-wrapper" pth r = false)
             e (listeners p')).
    - intros r [Hr _]. unfold shape in Hr. by injection Hr.
    - intros l r Hl Ht Hn (Hr1 & Hr2 & Hr3).
      destruct (Hs l Hl) as [Hl' _].
      split; [rewrite step_shape; try done; discriminate|].
      split.
      + rewrite step_stopped; try done; try discriminate.
        intros ->. by apply Hlang.
      + rewrite closest_step; try done; discriminate.
    - done. }
  destruct H1 as (Hsh1 & Hst1 & Hc1).
  assert (Hq : q = step document_listener e (propagate e pth p')).
  { unfold q, fire, dispatch, route. fold e p'. cbn [type path e].
    rewrite propagate_app by reflexivity. cbv zeta. rewrite Hst1.
    apply (propagate_document_window p0); try done.
    by rewrite Hsh1. }
  rewrite Hq. clear Hq.
  assert (Hsh2 : shape (propagate e pth p') = shape (load p0))
    by (by rewrite Hsh1).
  rewrite shape_load in Hsh2. unfold shape in Hsh2.
  injection Hsh2 as _ Hmt' Hhm' _ _ _ _ _.
  rewrite (present_true (menu_toggle p0)) in Hmt' by assumption.
  rewrite (present_true (header_menu p0)) in Hhm' by assumption.
  revert Hc1 Hmt' Hhm'. generalize (propagate e pth p'). subst e.
  clear -Hne. intros r Hc Hmt Hhm.
  destruct r as [mt hm lt ld tg html ov w0 sto ls sp un]; simpl in Hmt, Hhm.
  destruct mt as [mt|]; [|discriminate]. destruct hm as [hm|]; [|discriminate].
  destruct pth as [|n pth]; [by destruct Hne|].
  observe; simpl. rewrite Hc. simpl. by element_facts.
Qed.


(** X2.  With the trigger and the container on the page, at any time after
    the load, a click whose target is outside every header wrapper, and
    which does not pass the language toggle, leaves the menu closed:
    [aria-expanded] "false", no [is-open], body overflow empty.  This
    includes a click on a menu trigger that is itself outside the header
    wrapper: it opens the menu and the document listener closes it again. *)
Theorem click_outside_header_closes_menu
    (p0 : page) (acts : list action) (pth : list node) :
  menu_toggle p0 <> None ->
  header_menu p0 <> None ->
  pth <> [] ->
  ~ In LangToggle pth ->
  inside_header pth (run acts (load p0)) = false ->
  let q := fire (UserClick pth) (run acts (load p0)) in
  aria_expanded_value q = Some "false" /\
  menu_is_open q = false /\
  body_overflow q = "".
Proof.
  intros Hmt Hhm Hne Hlang Hout q.
  destruct (reached acts p0) as [Hs Hsh].
  by apply (outside_click_effect p0).
Qed.

Lemma click_outside_header_closes_menu_witness :
  let p := run [UserClick [MenuToggle; header_wrapper; DocumentElement]]
             (load sample) in
  let q := fire (UserClick [Other {["post"]}; DocumentElement]) p in
  menu_is_open p = true /\
  aria_expanded_value q = Some "false" /\
  menu_is_open q = false /\
  body_overflow q = "".
Proof.
  split; [reflexivity|].
  apply (click_outside_header_closes_menu sample
           [UserClick [MenuToggle; header_wrapper; DocumentElement]]).
  - discriminate.
  - discriminate.
  - discriminate.
  - intros [H|[H|[]]]; discriminate H.
  - reflexivity.
Defined.

(** ** The menu: scroll lock on every transition *)

Lemma aria_expanded_false (q : page) :
  aria_expanded_value q = Some "false" -> aria_expanded q = false.
Proof.
  unfold aria_expanded_value, aria_expanded.
  destruct (menu_toggle q); [|reflexivity]. by intros ->.
Qed.

(** What a resize above the threshold does to a page that has the listeners
    of the load. *)
Lemma resize_above_effect (p0 p : page) (w : Z) :
  sound p -> shape p = shape (load p0) ->
  menu_toggle p0 <> None ->
  header_menu p0 <> None ->
  768 < w ->
  let q := fire (ViewportResize w) p in
  aria_expanded_value q = Some "false" /\
  menu_is_open q = false /\
  body_overflow q = "".
Proof.
  intros Hs Hsh Hmt Hhm Hw q.
  assert (Hq : q = invoke Window (Event Resize [])
                 [OnWindowResize MenuToggle HeaderMenu]
                 (set_stopped false (set_innerWidth w p))).
  { unfold q, fire, dispatch, route. cbn [type propagate].
    rewrite (listeners_for_resize p0) by exact Hsh.
    rewrite !present_true by assumption. cbn [andb].
    by destruct (propagation_stopped _). }
  clearbody q. subst q. clear Hs.
  rewrite shape_load in Hsh. unfold shape in Hsh.
  injection Hsh as _ Hmt' Hhm' _ _ _ _ _.
  rewrite (present_true (menu_toggle p0)) in Hmt' by assumption.
  rewrite (present_true (header_menu p0)) in Hhm' by assumption.
  clear Hmt Hhm.
  destruct p as [mt hm lt ld tg html ov w0 sto ls sp un]; simpl in Hmt', Hhm'.
  destruct mt as [mt|]; [|discriminate]. destruct hm as [hm|]; [|discriminate].
  assert (Hgt : (w >? 768) = true) by (apply Z.gtb_lt; lia).
  observe; simpl. rewrite Hgt; simpl. by element_facts.
Qed.

(** C4.  On a page reached from a load, whatever happened since.  Any
    action that opens the menu leaves the body's inline overflow at
    "hidden", and any action that closes it leaves it at the empty string,
    for the open flag read from [aria-expanded] and, when the markup has
    both representations agree, for the flag read from the [is-open] class.
    And each transition does what it should, with the trigger and the
    container on the page: a trigger click inside the header opens a closed
    menu with overflow "hidden" and closes an open one with overflow empty;
    a click outside the header, and a resize above 768, each leave the menu
    closed with overflow empty. *)
Theorem overflow_follows_menu
    (p0 : page) (acts : list action) (a : action)
    (pre post pth : list node) (w : Z) :
  let p := run acts (load p0) in
  ((aria_expanded p = false -> aria_expanded (fire a p) = true ->
    body_overflow (fire a p) = "hidden") /\
   (aria_expanded p = true -> aria_expanded (fire a p) = false ->
    body_overflow (fire a p) = "")) /\
  (aria_expanded p0 = menu_is_open p0 ->
   (menu_is_open p = false -> menu_is_open (fire a p) = true ->
    body_overflow (fire a p) = "hidden") /\
   (menu_is_open p = true -> menu_is_open (fire a p) = false ->
    body_overflow (fire a p) = "")) /\
  (menu_toggle p0 <> None -> header_menu p0 <> None ->
   (Forall anonymous pre -> ~ In MenuToggle post ->
    inside_header (pre ++ MenuToggle :: post) p = true ->
    let q := fire (UserClick (pre ++ MenuToggle :: post)) p in
    (aria_expanded p = false ->
     aria_expanded q = true /\ body_overflow q = "hidden") /\
    (aria_expanded p = true ->
     aria_expanded q = false /\ body_overflow q = "")) /\
   (pth <> [] -> ~ In LangToggle pth -> inside_header pth p = false ->
    let q := fire (UserClick pth) p in
    aria_expanded q = false /\ menu_is_open q = false /\
    body_overflow q = "") /\
   (768 < w ->
    let q := fire (ViewportResize w) p in
    aria_expanded q = false /\ menu_is_open q = false /\
    body_overflow q = "")).
Proof.
  intros p.
  destruct (reached acts p0) as [Hs Hsh]. fold p in Hs, Hsh.
  assert (Hq : overflow_follows (aria_expanded p) (fire a p)).
  { apply fire_inv; [apply overflow_follows_invariant|].
    split; [exact Hs | by left]. }
  assert (Haria : (aria_expanded p = false -> aria_expanded (fire a p) = true ->
                   body_overflow (fire a p) = "hidden") /\
                  (aria_expanded p = true -> aria_expanded (fire a p) = false ->
                   body_overflow (fire a p) = "")).
  { destruct Hq as (_ & [Hq|Hq]).
    - split; intros H1 H2; congruence.
    - split; intros _ H2; rewrite Hq, H2; reflexivity. }
  split; [exact Haria|]. split.
  { intros Hagree.
    assert (Hp : sound p /\ menu_agrees p).
    { apply (run_inv _ acts (load p0) menu_agrees_invariant).
      by apply menu_agrees_load. }
    assert (Hq' : sound (fire a p) /\ menu_agrees (fire a p))
      by (by apply (fire_inv _ a p menu_agrees_invariant)).
    destruct Hp as [_ Hp]. destruct Hq' as [_ Hq'].
    unfold menu_agrees in Hp, Hq'. rewrite <- Hp, <- Hq'. exact Haria. }
  intros Hmt Hhm. split; [|split].
  - intros Hpre Hpost Hin q.
    destruct (menu_click_effect p0 p pre post) as (H1 & _ & H3);
      try assumption.
    fold q in H1, H3. rewrite H1, H3.
    split; intros ->; split; reflexivity.
  - intros Hne Hlang Hout q.
    destruct (outside_click_effect p0 p pth) as (H1 & H2 & H3);
      try assumption.
    split; [by apply aria_expanded_false|]. by split.
  - intros Hw q.
    destruct (resize_above_effect p0 p w) as (H1 & H2 & H3); try assumption.
    split; [by apply aria_expanded_false|]. by split.
Qed.

(** On the sample page: the trigger click that opens sets "hidden"; from the
    opened menu, the trigger click, a click outside the header and a resize
    to 1024 each close it and empty the overflow. *)
Lemma overflow_follows_menu_witness :
  let closed := run [] (load sample) in
  let opened := run [UserClick [MenuToggle; header_wrapper; DocumentElement]]
                  (load sample) in
  let trigger := UserClick ([] ++ MenuToggle
                               :: [header_wrapper; DocumentElement]) in
  (aria_expanded closed = false /\
   aria_expanded (fire trigger closed) = true /\
   body_overflow (fire trigger closed) = "hidden") /\
  (aria_expanded opened = true /\ body_overflow opened = "hidden") /\
  (aria_expanded (fire trigger opened) = false /\
   body_overflow (fire trigger opened) = "") /\
  (let q := fire (UserClick [Other {["post"]}; DocumentElement]) opened in
   aria_expanded q = false /\ menu_is_open q = false /\
   body_overflow q = "") /\
  (let q := fire (ViewportResize 1024) opened in
   aria_expanded q = false /\ menu_is_open q = false /\
   body_overflow q = "").
Proof.
  intros closed opened trigger.
  assert (Hnt : ~ In MenuToggle [header_wrapper; DocumentElement])
    by (intros [H|[H|[]]]; discriminate H).
  assert (Hnl : ~ In LangToggle [Other {["post"]}; DocumentElement])
    by (intros [H|[H|[]]]; discriminate H).
  assert (Hmt : menu_toggle sample <> None) by discriminate.
  assert (Hhm : header_menu sample <> None) by discriminate.
  assert (Hne : [Other {["post"]}; DocumentElement] <> []) by discriminate.
  assert (Hpre : Forall anonymous []) by constructor.
  destruct (overflow_follows_menu sample [] (ViewportResize 1024)
              [] [header_wrapper; DocumentElement]
              [Other {["post"]}; DocumentElement] 1024)
    as (_ & _ & H0).
  destruct (H0 Hmt Hhm) as (Hopen & _ & _).
  destruct (Hopen Hpre Hnt eq_refl) as [Hopen1 _].
  destruct (overflow_follows_menu sample
              [UserClick [MenuToggle; header_wrapper; DocumentElement]]
              (ViewportResize 1024)
              [] [header_wrapper; DocumentElement]
              [Other {["post"]}; DocumentElement] 1024)
    as (_ & _ & H1).
  destruct (H1 Hmt Hhm) as (Hclose & Hout & Hres).
  destruct (Hclose Hpre Hnt eq_refl) as [_ Hclose2].
  split; [split; [reflexivity | exact (Hopen1 eq_refl)]|].
  split; [split; reflexivity|].
  split; [exact (Hclose2 eq_refl)|].
  split; [exact (Hout Hne Hnl eq_refl) | exact (Hres eq_refl)].
Defined.

(** ** What an action leaves alone *)

Lemma propagate_theme_frame_any (e : event) (rt : list node) (p : page) :
  sound p -> type e <> DOMContentLoaded -> ~ In ThemeToggle rt ->
  documentElement (propagate e rt p) = documentElement p /\
  localStorage (propagate e rt p) = localStorage p.
Proof.
  intros Hs He Hrt.
  enough (shape (propagate e rt p) = shape p /\
          documentElement (propagate e rt p) = documentElement p /\
          localStorage (propagate e rt p) = localStorage p) by tauto.
  apply (propagate_inv
           (fun q => shape q = shape p /\
                     documentElement q = documentElement p /\
                     localStorage q = localStorage p) e (listeners p)).
  - intros q [Hq _]. unfold shape in Hq. by injection Hq.
  - intros l q Hl Ht Hn (Hsh & Hd & Hst).
    destruct (Hs l Hl) as [Hl' _].
    split; [rewrite step_shape; done|].
    rewrite <- Hd, <- Hst. clear Hd Hst Hsh Hl.
    by_listener Hl' Ht He; try (by destruct Hrt);
      on_page e q; split; reflexivity.
  - done.
Qed.

Lemma propagate_dropdown_frame (e : event) (rt : list node) (p : page) :
  sound p -> type e <> DOMContentLoaded -> ~ In LangToggle rt ->
  lang_dropdown (propagate e rt p) = lang_dropdown p.
Proof.
  intros Hs He Hrt.
  enough (shape (propagate e rt p) = shape p /\
          lang_dropdown (propagate e rt p) = lang_dropdown p) by tauto.
  apply (propagate_inv
           (fun q => shape q = shape p /\ lang_dropdown q = lang_dropdown p)
           e (listeners p)).
  - intros q [Hq _]. unfold shape in Hq. by injection Hq.
  - intros l q Hl Ht Hn (Hsh & Hd).
    destruct (Hs l Hl) as [Hl' _].
    split; [rewrite step_shape; done|].
    rewrite <- Hd. clear Hd Hsh Hl.
    by_listener Hl' Ht He; try (by destruct Hrt); on_page e q; reflexivity.
  - done.
Qed.

(** X4.  At any time after the load, a resize, or a click that does not
    pass the theme toggle, leaves the root element and the storage exactly
    as they were: the menu and dropdown listeners never touch the theme. *)
Theorem theme_untouched_off_toggle
    (p0 : page) (acts : list action) (a : action) :
  ~ passes ThemeToggle a ->
  let p := run acts (load p0) in
  documentElement (fire a p) = documentElement p /\
  localStorage (fire a p) = localStorage p.
Proof.
  intros Ha p. destruct (reached acts p0) as [Hs _]. fold p in Hs.
  destruct a as [pth|w]; unfold fire, dispatch, route; cbn [type path].
  - change (documentElement p) with (documentElement (set_stopped false p)).
    change (localStorage p) with (localStorage (set_stopped false p)).
    apply propagate_theme_frame_any.
    + by apply sound_set_stopped.
    + discriminate.
    + simpl in Ha. by intros [?|[?|[?|[]]]]%in_app_or.
  - change (documentElement p)
      with (documentElement (set_stopped false (set_innerWidth w p))).
    change (localStorage p)
      with (localStorage (set_stopped false (set_innerWidth w p))).
    apply propagate_theme_frame_any.
    + by apply sound_set_stopped, sound_set_innerWidth.
    + discriminate.
    + by intros [?|[]].
Qed.

Lemma theme_untouched_off_toggle_witness :
  let p := run [theme_click] (load sample) in
  let a := UserClick [MenuToggle; header_wrapper; DocumentElement] in
  data_theme p = Some "dark" /\
  documentElement (fire a p) = documentElement p /\
  localStorage (fire a p) = localStorage p.
Proof.
  split; [reflexivity|].
  apply (theme_untouched_off_toggle sample [theme_click]).
  intros [H|[H|[H|[]]]]; discriminate H.
Defined.

(** X5.  At any time after the load, a resize, or a click that does not
    pass the language toggle, leaves the dropdown exactly as it was: an
    open dropdown is closed neither by a click elsewhere nor by a resize. *)
Theorem dropdown_untouched_off_toggle
    (p0 : page) (acts : list action) (a : action) :
  ~ passes LangToggle a ->
  let p := run acts (load p0) in
  lang_dropdown (fire a p) = lang_dropdown p.
Proof.
  intros Ha p. destruct (reached acts p0) as [Hs _]. fold p in Hs.
  destruct a as [pth|w]; unfold fire, dispatch, route; cbn [type path].
  - change (lang_dropdown p) with (lang_dropdown (set_stopped false p)).
    apply propagate_dropdown_frame.
    + by apply sound_set_stopped.
    + discriminate.
    + simpl in Ha. by intros [?|[?|[?|[]]]]%in_app_or.
  - change (lang_dropdown p)
      with (lang_dropdown (set_stopped false (set_innerWidth w p))).
    apply propagate_dropdown_frame.
    + by apply sound_set_stopped, sound_set_innerWidth.
    + discriminate.
    + by intros [?|[]].
Qed.

Lemma dropdown_untouched_off_toggle_witness :
  let p := run [UserClick [LangToggle; header_wrapper; DocumentElement]]
             (load sample) in
  dropdown_is_open p = true /\
  lang_dropdown (fire (ViewportResize 1280) p) = lang_dropdown p /\
  lang_dropdown (fire (UserClick [Other {["post"]}; DocumentElement]) p) =
    lang_dropdown p.
Proof.
  split; [reflexivity|]. split.
  - apply (dropdown_untouched_off_toggle sample
             [UserClick [LangToggle; header_wrapper; DocumentElement]]
             (ViewportResize 1280)).
    intros [].
  - apply (dropdown_untouched_off_toggle sample
             [UserClick [LangToggle; header_wrapper; DocumentElement]]
             (UserClick [Other {["post"]}; DocumentElement])).
    intros [H|[H|[]]]; discriminate H.
Defined.

(** ** The language dropdown: further properties *)

Lemma no_lang_listener_invariant (d : option element) :
  invariant (fun q => sound q /\ ~ In lang_listener (listeners q) /\
                      lang_dropdown q = d).
Proof.
  split.
  - intros q [H _]. exact H.
  - intros q b (Hs & H). split; [by apply sound_set_stopped | exact H].
  - intros q w (Hs & H). split; [by apply sound_set_innerWidth | exact H].
  - intros l e q Hin Hl Hr Ht He (Hs & Hn & Hd).
    split; [by apply sound_step|].
    split; [by rewrite step_listeners|].
    rewrite <- Hd. clear Hd Hs Hr.
    by_listener Hl Ht He; try (by destruct Hn); on_page e q; reflexivity.
Qed.

Lemma no_lang_listener_load (p : page) :
  768 < innerWidth p -> ~ In lang_listener (listeners (load p)).
Proof.
  intros Hw. rewrite load_eq; cbn [listeners].
  unfold menu_listeners, dropdown_listeners, theme_listeners.
  assert (Hb : (innerWidth p <=? 768) = false) by (apply Z.leb_gt; lia).
  rewrite Hb, andb_false_r.
  destruct (present (menu_toggle p) && present (header_menu p)),
    (getItem_throws (localStorage p)), (present (theme_toggle p));
    simpl; intuition discriminate.
Qed.

(** X6.  When the viewport is wider than 768 at initialization, the
    dropdown stays as the markup had it for the whole session: no click, on
    the language toggle or elsewhere, and no later resize to a narrow width
    ever changes it. *)
Theorem dropdown_inert_after_wide_load (p0 : page) (acts : list action) :
  768 < innerWidth p0 ->
  lang_dropdown (run acts (load p0)) = lang_dropdown p0.
Proof.
  intros Hw.
  enough (H : sound (run acts (load p0)) /\
              ~ In lang_listener (listeners (run acts (load p0))) /\
              lang_dropdown (run acts (load p0)) = lang_dropdown p0) by tauto.
  apply run_inv; [apply no_lang_listener_invariant|].
  split; [apply sound_load|]. split; [by apply no_lang_listener_load|].
  by rewrite load_eq.
Qed.

Lemma dropdown_inert_after_wide_load_witness :
  lang_dropdown
    (run [ViewportResize 600;
          UserClick [LangToggle; header_wrapper; DocumentElement];
          UserClick [LangToggle; header_wrapper; DocumentElement]]
       (load wide)) = lang_dropdown wide.
Proof. apply (dropdown_inert_after_wide_load wide). reflexivity. Defined.

(** A click on the language toggle runs its listener and stops there. *)
Lemma fire_lang_click (p0 p : page) (pre post : list node) :
  sound p -> shape p = shape (load p0) ->
  lang_toggle p0 <> None -> lang_dropdown p0 <> None ->
  innerWidth p0 <= 768 ->
  Forall anonymous pre ->
  let e := Event Click (pre ++ LangToggle :: post) in
  fire (UserClick (pre ++ LangToggle :: post)) p =
  step lang_listener e (set_stopped false p).
Proof.
  intros Hs Hsh Hlt Hld Hw Hpre e.
  unfold fire, dispatch, route. fold e.
  cbn [type path e]. rewrite <- app_assoc.
  rewrite propagate_anonymous;
    [|by apply sound_set_stopped | reflexivity | exact Hpre].
  cbn [app propagate type e].
  rewrite (listeners_for_lang_click p0) by exact Hsh.
  rewrite !present_true by assumption.
  apply Z.leb_le in Hw. rewrite Hw. cbn [andb invoke].
  change (let (r, p') :=
            call (OnLangToggleClick LangDropdown) LangToggle e
              (set_stopped false p) in report r p')
    with (step lang_listener e (set_stopped false p)).
  assert (Hst : propagation_stopped
                  (step lang_listener e (set_stopped false p)) = true).
  { clearbody e. clear.
    destruct p as [mt hm lt ld tg html ov w0 sto ls sp un].
    simpl. by destruct ld. }
  by rewrite Hst.
Qed.

(** X7.  When both language elements exist and the viewport is at most 768
    wide at initialization, two clicks on the language toggle, at any later
    time, bring the dropdown back exactly to what it was. *)
Theorem lang_toggle_twice
    (p0 : page) (acts : list action) (pre1 post1 pre2 post2 : list node) :
  lang_toggle p0 <> None ->
  lang_dropdown p0 <> None ->
  innerWidth p0 <= 768 ->
  Forall anonymous pre1 ->
  Forall anonymous pre2 ->
  let p := run acts (load p0) in
  let q := fire (UserClick (pre2 ++ LangToggle :: post2))
             (fire (UserClick (pre1 ++ LangToggle :: post1)) p) in
  lang_dropdown q = lang_dropdown p.
Proof.
  intros Hlt Hld Hw Hpre1 Hpre2 p q.
  destruct (reached acts p0) as [Hs Hsh]. fold p in Hs, Hsh.
  set (q1 := fire (UserClick (pre1 ++ LangToggle :: post1)) p) in *.
  assert (H1 : sound q1 /\ shape q1 = shape (load p0)).
  { apply (fire_inv _ _ p (shape_invariant (shape (load p0)))). by split. }
  destruct H1 as [Hs1 Hsh1].
  unfold q. rewrite (fire_lang_click p0 q1) by assumption.
  unfold q1. rewrite (fire_lang_click p0 p) by assumption.
  generalize (Event Click (pre1 ++ LangToggle :: post1)).
  generalize (Event Click (pre2 ++ LangToggle :: post2)).
  intros e2 e1. clear.
  destruct p as [mt hm lt ld tg html ov w0 sto ls sp un].
  destruct ld as [ld|]; simpl; [|reflexivity].
  by rewrite el_toggle_twice.
Qed.

Lemma lang_toggle_twice_witness :
  let p := run [UserClick [LangToggle; header_wrapper; DocumentElement]]
             (load sample) in
  let q := fire (UserClick ([] ++ LangToggle :: [DocumentElement]))
             (fire (UserClick ([Other ∅] ++ LangToggle :: [DocumentElement])) p) in
  dropdown_is_open p = true /\ lang_dropdown q = lang_dropdown p.
Proof.
  split; [reflexivity|].
  apply (lang_toggle_twice sample
           [UserClick [LangToggle; header_wrapper; DocumentElement]]
           [Other ∅] [DocumentElement] [] [DocumentElement]).
  - discriminate.
  - discriminate.
  - vm_compute; discriminate.
  - repeat constructor.
  - constructor.
Defined.

(** ** The theme: further properties *)

Lemma theme_settled_invariant : invariant theme_settled.
Proof.
  split.
  - intros q [H _]. exact H.
  - intros q b (Hs & H). split; [by apply sound_set_stopped | exact H].
  - intros q w (Hs & H). split; [by apply sound_set_innerWidth | exact H].
  - intros l e q _ Hl Hr Ht He (Hs & Hw & Hm & Hv).
    split; [by apply sound_step|].
    clear Hs. revert Hw Hm Hv. observe.
    by_listener Hl Ht He; on_ready_page e q Hr; element_facts;
      try (intros H1 H2 H3; repeat split; assumption); try discriminate.
    intros _ _ _. rewrite lookup_insert_eq.
    split; [reflexivity|]. split; [reflexivity|].
    destruct (opposite_cases (el_getAttribute "data-theme" html)) as [-> | ->];
      auto.
Qed.

Lemma theme_settled_after_click (p0 p : page) (pre post : list node) :
  sound p -> shape p = shape (load p0) ->
  getItem_throws (localStorage p0) = false ->
  setItem_throws (localStorage p0) = false ->
  theme_toggle p0 <> None ->
  Forall anonymous pre ->
  theme_settled (fire (UserClick (pre ++ ThemeToggle :: post)) p).
Proof.
  intros Hs Hsh Hg Hw Htg Hpre.
  rewrite (fire_theme_click p0) by assumption.
  set (e := Event Click _).
  apply propagate_invariant; [apply theme_settled_invariant | discriminate |].
  destruct (theme_step e (set_stopped false p)) as (_ & Hsh1 & Hd & Hst & _).
  assert (Hw' : setItem_throws (localStorage p) = false).
  { rewrite shape_load in Hsh. unfold shape in Hsh.
    injection Hsh as _ _ _ _ _ _ _ Hw'. by rewrite Hw'. }
  change (localStorage (set_stopped false p)) with (localStorage p) in Hst.
  rewrite Hw' in Hst.
  split; [apply (sound_shape _ p); [exact Hsh1 | exact Hs]|].
  destruct (opposite_cases (data_theme (set_stopped false p))) as [Ho|Ho];
    rewrite Ho in Hd, Hst;
    unfold data_theme, stored_theme; rewrite Hd, Hst;
    rewrite el_getAttribute_set_eq; simpl; rewrite lookup_insert_eq; auto.
Qed.

(** X8.  With a storage that can be read and written, the theme chosen by
    a click on the theme toggle is the one that the next page load applies:
    whatever happens after the click, any page of the site loaded with the
    storage as the session left it gets the same [data-theme], and the load
    raises nothing. *)
Theorem theme_survives_reload
    (p0 p1 : page) (acts acts' : list action) (pre post : list node) :
  getItem_throws (localStorage p0) = false ->
  setItem_throws (localStorage p0) = false ->
  theme_toggle p0 <> None ->
  Forall anonymous pre ->
  let q := run acts' (fire (UserClick (pre ++ ThemeToggle :: post))
                        (run acts (load p0))) in
  localStorage p1 = localStorage q ->
  data_theme (load p1) = data_theme q /\ uncaught (load p1) = [].
Proof.
  intros Hg Hw Htg Hpre q Hsto.
  destruct (reached acts p0) as [Hs Hsh].
  assert (Hq : theme_settled q).
  { apply run_inv; [apply theme_settled_invariant|].
    by apply (theme_settled_after_click p0). }
  assert (Hgq : getItem_throws (localStorage q) = false).
  { assert (H : sound q /\ shape q = shape (load p0)).
    { apply run_inv; [apply shape_invariant|].
      apply (fire_inv _ _ _ (shape_invariant (shape (load p0)))). by split. }
    destruct H as [_ H]. rewrite shape_load in H. unfold shape in H.
    injection H as _ _ _ _ _ _ Hgq _. by rewrite Hgq. }
  destruct Hq as (_ & _ & Heq & Hv).
  rewrite load_eq. unfold data_theme at 1, stored_theme; simpl.
  rewrite Hsto, Hgq. split; [|reflexivity].
  rewrite el_getAttribute_set_eq.
  fold (stored_theme q). rewrite <- Heq.
  by destruct Hv as [-> | ->].
Qed.

Lemma theme_survives_reload_witness :
  let q := run [ViewportResize 900]
             (fire (UserClick ([] ++ ThemeToggle
                                 :: [header_wrapper; DocumentElement]))
                (run [] (load sample))) in
  data_theme (load without_theme_toggle) = data_theme q /\
  uncaught (load without_theme_toggle) = [].
Proof.
  apply (theme_survives_reload sample without_theme_toggle
           [] [ViewportResize 900] [] [header_wrapper; DocumentElement]
           eq_refl eq_refl).
  - discriminate.
  - constructor.
  - vm_compute. reflexivity.
Defined.

(** X9.  With a storage that can be read and written, at any time after
    the load, one click on the theme toggle turns "dark" into "light" and
    anything else (no attribute, "light", or an unrecognised value that the
    load took from the storage) into "dark", and stores the value it set. *)
Theorem theme_click_sets_opposite
    (p0 : page) (acts : list action) (pre post : list node) :
  getItem_throws (localStorage p0) = false ->
  setItem_throws (localStorage p0) = false ->
  theme_toggle p0 <> None ->
  Forall anonymous pre ->
  ~ In ThemeToggle post ->
  let p := run acts (load p0) in
  let q := fire (UserClick (pre ++ ThemeToggle :: post)) p in
  (data_theme p = Some "dark" -> data_theme q = Some "light") /\
  (data_theme p <> Some "dark" -> data_theme q = Some "dark") /\
  stored_theme q = data_theme q.
Proof.
  intros Hg Hw Htg Hpre Hpost p q.
  destruct (reached acts p0) as [Hs Hsh]. fold p in Hs, Hsh.
  destruct (theme_click_effect p0 p pre post) as (Hd & Hst & _);
    try assumption.
  fold q in Hd, Hst.
  assert (Hw' : setItem_throws (localStorage p) = false).
  { rewrite shape_load in Hsh. unfold shape in Hsh.
    injection Hsh as _ _ _ _ _ _ _ Hw'. by rewrite Hw'. }
  rewrite Hw' in Hst.
  assert (Hq : data_theme q = Some (opposite (data_theme p)))
    by (unfold data_theme at 1; rewrite Hd; apply el_getAttribute_set_eq).
  assert (Hsq : stored_theme q = Some (opposite (data_theme p)))
    by (unfold stored_theme; rewrite Hst; simpl; apply lookup_insert_eq).
  rewrite Hq, Hsq. unfold opposite.
  split; [intros ->; reflexivity|]. split; [|reflexivity].
  intros Hn. by rewrite bool_decide_eq_false_2.
Qed.

Lemma theme_click_sets_opposite_witness :
  let p := run [] (load with_blue_stored) in
  let q := fire (UserClick ([] ++ ThemeToggle :: [DocumentElement])) p in
  data_theme p = Some "blue" /\
  data_theme q = Some "dark" /\
  stored_theme q = data_theme q.
Proof.
  split; [reflexivity|].
  destruct (theme_click_sets_opposite with_blue_stored [] [] [DocumentElement])
    as (_ & H2 & H3).
  - reflexivity.
  - reflexivity.
  - discriminate.
  - constructor.
  - intros [H|[]]; discriminate H.
  - split; [apply H2; discriminate | exact H3].
Defined.

(** ** Exceptions *)

Lemma sound_is_invariant : invariant sound.
Proof.
  split.
  - auto.
  - intros q b. apply sound_set_stopped.
  - intros q w. apply sound_set_innerWidth.
  - intros l e q _ Hl _. by apply sound_step.
Qed.

(** A listener whose elements are on the page raises nothing, except the
    theme listener on a storage that refuses the write. *)
Lemma step_uncaught (l : listener) (e : event) (q : page) :
  In l script_listeners -> ready l q -> on_type l = type e ->
  type e <> DOMContentLoaded ->
  (type e = Click -> path e <> []) ->
  uncaught (step l e q) = uncaught q \/
  (setItem_throws (localStorage q) = true /\
   uncaught (step l e q) = (uncaught q ++ [DOMException])%list).
Proof.
  intros Hl Hr Ht He Hp.
  assert (Hp' : on_type l = Click -> path e <> [])
    by (intros H; apply Hp; congruence).
  clear Hp. revert Hp'.
  by_listener Hl Ht He; on_ready_page e q Hr; intros Hp; auto.
  all: by destruct Hp.
Qed.

Lemma fire_uncaught (a : action) (p : page) :
  sound p -> targeted a ->
  Forall (eq DOMException) (uncaught p) ->
  Forall (eq DOMException) (uncaught (fire a p)) /\
  (setItem_throws (localStorage p) = false ->
   uncaught (fire a p) = uncaught p).
Proof.
  intros Hs Ha Hu.
  set (e := match a with
            | UserClick pth => Event Click pth
            | ViewportResize _ => Event Resize []
            end).
  set (p' := match a with
             | UserClick _ => set_stopped false p
             | ViewportResize w => set_stopped false (set_innerWidth w p)
             end).
  assert (Hfire : fire a p = propagate e (route e) p') by (by destruct a).
  assert (He : type e <> DOMContentLoaded) by (by destruct a).
  assert (Hp : type e = Click -> path e <> []) by (by destruct a).
  assert (Hs' : sound p') by (destruct a; by apply (sound_shape _ p)).
  assert (Hsh' : shape p' = shape p) by (by destruct a).
  assert (Hu' : uncaught p' = uncaught p) by (by destruct a).
  rewrite Hfire, <- Hu'. rewrite <- Hu' in Hu.
  assert (Hw : setItem_throws (localStorage p) =
               setItem_throws (localStorage p')) by (by destruct a).
  rewrite Hw. clear Hfire Hu' Hw Hsh' Ha Hs. clearbody e p'.
  enough (shape (propagate e (route e) p') = shape p' /\
          Forall (eq DOMException) (uncaught (propagate e (route e) p')) /\
          (setItem_throws (localStorage p') = false ->
           uncaught (propagate e (route e) p') = uncaught p')) by tauto.
  apply (propagate_inv
           (fun q => shape q = shape p' /\
                     Forall (eq DOMException) (uncaught q) /\
                     (setItem_throws (localStorage p') = false ->
                      uncaught q = uncaught p'))
           e (listeners p')).
  - intros q [Hq _]. unfold shape in Hq. by injection Hq.
  - intros l q Hl Ht _ (Hsh & HF & Hw).
    destruct (Hs' l Hl) as [Hl' _].
    assert (Hr : ready l q).
    { destruct (sound_shape q p' Hsh Hs' l) as [_ Hr]; [|exact Hr].
      unfold shape in Hsh. injection Hsh as -> _. exact Hl. }
    split; [rewrite step_shape; done|].
    assert (Hst : setItem_throws (localStorage q) =
                  setItem_throws (localStorage p'))
      by (unfold shape in Hsh; by injection Hsh).
    destruct (step_uncaught l e q Hl' Hr Ht He Hp) as [-> | [Hthrows ->]].
    + by split.
    + split; [apply Forall_app; split; [exact HF | by repeat constructor]|].
      intros Hno. congruence.
  - done.
Qed.

(** X10.  Through a whole session of clicks on elements and of resizes,
    whatever the markup lacks and whatever the storage refuses, no listener
    ever raises a [TypeError]: the only exceptions that escape are those of
    the storage.  When the storage can be read and written nothing escapes
    at all. *)
Theorem only_storage_errors (p0 : page) (acts : list action) :
  Forall targeted acts ->
  let p := run acts (load p0) in
  Forall (eq DOMException) (uncaught p) /\
  (getItem_throws (localStorage p0) = false ->
   setItem_throws (localStorage p0) = false ->
   uncaught p = []).
Proof.
  intros Hacts p.
  assert (H0 : sound (load p0) /\
               Forall (eq DOMException) (uncaught (load p0)) /\
               setItem_throws (localStorage (load p0)) =
                 setItem_throws (localStorage p0) /\
               (getItem_throws (localStorage p0) = false ->
                uncaught (load p0) = [])).
  { split; [apply sound_load|]. rewrite load_eq; simpl.
    destruct (getItem_throws (localStorage p0));
      repeat split; try done; by repeat constructor. }
  unfold p. clear p.
  revert H0. generalize (load p0). intros p (Hs & HF & Hw & Hg).
  enough (H : sound (run acts p) /\
              Forall (eq DOMException) (uncaught (run acts p)) /\
              (setItem_throws (localStorage p) = false ->
               uncaught (run acts p) = uncaught p)).
  { destruct H as (_ & H1 & H2). split; [exact H1|].
    intros Hg0 Hw0. rewrite H2 by congruence. by apply Hg. }
  clear Hg Hw. revert p Hs HF.
  induction Hacts as [|a acts Ha _ IH]; intros p Hs HF;
    [split; [exact Hs|]; split; [exact HF | reflexivity]|].
  destruct (fire_uncaught a p Hs Ha HF) as [HF1 Hw1].
  assert (Hs1 : sound (fire a p)) by (by apply (fire_inv _ _ _ sound_is_invariant)).
  destruct (IH (fire a p) Hs1 HF1) as (Hs2 & HF2 & Hw2).
  split; [exact Hs2|]. split; [exact HF2|].
  intros Hw.
  assert (Hw' : setItem_throws (localStorage (fire a p)) = false).
  { destruct (fire_inv _ a p (shape_invariant (shape p))) as [_ H];
      [by split|].
    unfold shape in H. injection H as _ _ _ _ _ _ _ H. by rewrite H. }
  change (run (a :: acts) p) with (run acts (fire a p)).
  rewrite Hw2, Hw1; done.
Qed.

Lemma only_storage_errors_witness :
  let p := run [theme_click;
                UserClick [MenuToggle; header_wrapper; DocumentElement];
                ViewportResize 1024; theme_click]
             (load read_only) in
  Forall (eq DOMException) (uncaught p).
Proof.
  apply (only_storage_errors read_only).
  repeat constructor; discriminate.
Defined.

(** ** The listener table *)

(** X11.  Initialization registers no listener twice, and after it the
    listener table never changes: no click and no resize registers or
    removes a listener. *)
Theorem listener_table_fixed (p0 : page) (acts : list action) :
  listeners (run acts (load p0)) = listeners (load p0) /\
  List.NoDup (listeners (load p0)).
Proof.
  split.
  - destruct (reached acts p0) as [_ H]. unfold shape in H. by injection H.
  - rewrite load_eq; cbn [listeners].
    unfold menu_listeners, dropdown_listeners, theme_listeners.
    destruct (present (menu_toggle p0) && present (header_menu p0)),
      (present (lang_toggle p0) && present (lang_dropdown p0)
         && (innerWidth p0 <=? 768)),
      (getItem_throws (localStorage p0)), (present (theme_toggle p0));
      simpl; repeat (apply List.NoDup_cons; [simpl; intuition discriminate|]);
      apply List.NoDup_nil.
Qed.
